(** * filesconversion: the conversion pipeline of [src/app/page.tsx]

    A shallow embedding of the in-browser image converter: the file
    validator, the SVG sizing heuristic, the ICO container builder and the
    batch orchestrator [convertAll], followed by the properties the
    specification states about them.

    Conventions.
    - A byte buffer ([ArrayBuffer], [Uint8Array]) is a [list Z] of bytes;
      the [DataView] setters write out the wrap-around of their width.
    - A JavaScript exception is a value of [exn]; code that may throw
      returns an [outcome].
    - Browser collaborators (the DOM parser, [parseFloat], the image
      decoder, the canvas encoder, the archive writer) are not part of the
      repository: they are the fields of an environment the orchestrator is
      parameterised by. *)

From Stdlib Require Import Ascii String QArith.
From stdpp Require Import base numbers list strings gmap.

Local Open Scope Z_scope.

(** ** Exceptions and fallible computations *)

(** What a [catch] clause can receive: an [Error] instance carrying its
    message, or any other thrown value. *)
Inductive exn : Type :=
  | JsError (message : string)
  | JsThrown.

Inductive outcome (A : Type) : Type :=
  | Ok (a : A)
  | Throw (e : exn).
Arguments Ok {A} a.
Arguments Throw {A} e.

#[global] Instance outcome_ret : MRet outcome := fun _ a => Ok a.
#[global] Instance outcome_bind : MBind outcome := fun _ _ f m =>
  match m with
  | Ok a => f a
  | Throw e => Throw e
  end.

(** ** Blobs and byte buffers *)

Record Blob : Type := mkBlob {
  blob_data : list Z;
  blob_type : string;
}.

Module DataView.

Definition RangeError : exn :=
  JsError "Offset is outside the bounds of the DataView".

(** [new ArrayBuffer(n)]: [n] zero bytes. The allocation is taken to
    succeed; an engine that cannot allocate the block throws a
    [RangeError] here. *)
Definition new_ArrayBuffer (n : nat) : list Z := replicate n 0.

(** [view.setUint8(byteOffset, value)]: the value modulo 2^8. *)
Definition setUint8 (buf : list Z) (byteOffset : nat) (value : Z)
  : outcome (list Z) :=
  if (byteOffset + 1 <=? length buf)%nat
  then Ok (<[byteOffset := value `mod` 256]> buf)
  else Throw RangeError.

(** [view.setUint16(byteOffset, value, littleEndian)]: the value modulo
    2^16, low byte first when [littleEndian]. *)
Definition setUint16 (buf : list Z) (byteOffset : nat) (value : Z)
    (littleEndian : bool) : outcome (list Z) :=
  if (byteOffset + 2 <=? length buf)%nat
  then
    let v := value `mod` 65536 in
    let b0 := Z.land v 255 in
    let b1 := Z.land (Z.shiftr v 8) 255 in
    Ok (if littleEndian
        then <[(byteOffset + 1)%nat := b1]> (<[byteOffset := b0]> buf)
        else <[(byteOffset + 1)%nat := b0]> (<[byteOffset := b1]> buf))
  else Throw RangeError.

(** [view.setUint32(byteOffset, value, littleEndian)]: the value modulo
    2^32. *)
Definition setUint32 (buf : list Z) (byteOffset : nat) (value : Z)
    (littleEndian : bool) : outcome (list Z) :=
  if (byteOffset + 4 <=? length buf)%nat
  then
    let v := value `mod` 4294967296 in
    let b0 := Z.land v 255 in
    let b1 := Z.land (Z.shiftr v 8) 255 in
    let b2 := Z.land (Z.shiftr v 16) 255 in
    let b3 := Z.land (Z.shiftr v 24) 255 in
    Ok (if littleEndian
        then <[(byteOffset + 3)%nat := b3]> (<[(byteOffset + 2)%nat := b2]>
               (<[(byteOffset + 1)%nat := b1]> (<[byteOffset := b0]> buf)))
        else <[(byteOffset + 3)%nat := b0]> (<[(byteOffset + 2)%nat := b1]>
               (<[(byteOffset + 1)%nat := b2]> (<[byteOffset := b3]> buf))))
  else Throw RangeError.

(** [new Uint8Array(buffer, byteOffset).set(source)]: copies [source]
    over the bytes from [byteOffset] on; a source that does not fit is a
    [RangeError]. *)
Definition Uint8Array_set (buf : list Z) (byteOffset : nat)
    (source : list Z) : outcome (list Z) :=
  if (byteOffset + length source <=? length buf)%nat
  then Ok (take byteOffset buf ++ source
           ++ drop (byteOffset + length source) buf)
  else Throw RangeError.

(** The readers, used to state the layout. *)
Definition getUint8 (buf : list Z) (byteOffset : nat) : option Z :=
  buf !! byteOffset.

Definition getUint16 (buf : list Z) (byteOffset : nat)
    (littleEndian : bool) : option Z :=
  x0 ← buf !! byteOffset;
  x1 ← buf !! (byteOffset + 1)%nat;
  Some (if littleEndian then x0 + 256 * x1 else x1 + 256 * x0).

Definition getUint32 (buf : list Z) (byteOffset : nat)
    (littleEndian : bool) : option Z :=
  x0 ← buf !! byteOffset;
  x1 ← buf !! (byteOffset + 1)%nat;
  x2 ← buf !! (byteOffset + 2)%nat;
  x3 ← buf !! (byteOffset + 3)%nat;
  Some (if littleEndian
        then x0 + 256 * x1 + 65536 * x2 + 16777216 * x3
        else x3 + 256 * x2 + 65536 * x1 + 16777216 * x0).

End DataView.

(** ** The icon container builder *)

Definition buildIcoBlob (pngData : list Z) (size : Z) : outcome Blob :=
  let headerSize := (6 + 16)%nat in
  let totalSize := (headerSize + length pngData)%nat in
  let buffer := DataView.new_ArrayBuffer totalSize in
  let offset := 0%nat in
  buffer ← DataView.setUint16 buffer offset 0 true;
  let offset := (offset + 2)%nat in
  buffer ← DataView.setUint16 buffer offset 1 true;
  let offset := (offset + 2)%nat in
  buffer ← DataView.setUint16 buffer offset 1 true;
  let offset := (offset + 2)%nat in
  let iconSize := if size >=? 256 then 0 else size in
  buffer ← DataView.setUint8 buffer offset iconSize;
  let offset := (offset + 1)%nat in
  buffer ← DataView.setUint8 buffer offset iconSize;
  let offset := (offset + 1)%nat in
  buffer ← DataView.setUint8 buffer offset 0;
  let offset := (offset + 1)%nat in
  buffer ← DataView.setUint8 buffer offset 0;
  let offset := (offset + 1)%nat in
  buffer ← DataView.setUint16 buffer offset 1 true;
  let offset := (offset + 2)%nat in
  buffer ← DataView.setUint16 buffer offset 32 true;
  let offset := (offset + 2)%nat in
  buffer ← DataView.setUint32 buffer offset (Z.of_nat (length pngData)) true;
  let offset := (offset + 4)%nat in
  buffer ← DataView.setUint32 buffer offset (Z.of_nat headerSize) true;
  buffer ← DataView.Uint8Array_set buffer headerSize pngData;
  mret (mkBlob buffer "image/x-icon").

(** ** JavaScript strings

    A string is a sequence of 8-bit code units; the operations below follow
    the built-ins on such strings. *)

Module JsString.

(** [s.toLowerCase()], on the letters [A]..[Z]. *)
Definition lower_char (c : ascii) : ascii :=
  let n := nat_of_ascii c in
  if ((65 <=? n) && (n <=? 90))%nat then ascii_of_nat (n + 32) else c.

Fixpoint toLowerCase (s : string) : string :=
  match s with
  | EmptyString => EmptyString
  | String c s' => String (lower_char c) (toLowerCase s')
  end.

(** [s.split(sep)] for a one-character separator: never an empty array. *)
Fixpoint split (sep : ascii) (s : string) : list string :=
  match s with
  | EmptyString => [EmptyString]
  | String c s' =>
      if Ascii.eqb c sep then EmptyString :: split sep s'
      else match split sep s' with
           | hd :: tl => String c hd :: tl
           | [] => [String c EmptyString]
           end
  end.

(** The characters [\s] matches: tab, line feed, vertical tab, form feed,
    carriage return, space and no-break space. *)
Definition is_space (c : ascii) : bool :=
  let n := nat_of_ascii c in
  (((9 <=? n) && (n <=? 13)) || (n =? 32) || (n =? 160))%nat.

(** [s.split(/\s+/)]: a maximal run of white space is one separator;
    [in_run] says that the previous character belonged to such a run. *)
Fixpoint split_spaces_from (in_run : bool) (s : string) : list string :=
  match s with
  | EmptyString => [EmptyString]
  | String c s' =>
      if is_space c
      then (if in_run then split_spaces_from true s'
            else EmptyString :: split_spaces_from true s')
      else match split_spaces_from false s' with
           | hd :: tl => String c hd :: tl
           | [] => [String c EmptyString]
           end
  end.

Definition split_spaces (s : string) : list string :=
  split_spaces_from false s.

(** [parts.join(sep)]. *)
Fixpoint join (sep : string) (parts : list string) : string :=
  match parts with
  | [] => EmptyString
  | [p] => p
  | p :: rest => String.append p (String.append sep (join sep rest))
  end.

(** [parts.pop()]: the last element, [undefined] on an empty array; the
    array that is left is [removelast parts]. *)
Definition pop (parts : list string) : option string := last parts.

(** [x || ""] for [x] a string or [undefined]. *)
Definition or_empty (x : option string) : string := default EmptyString x.

(** [s.endsWith(suffix)]. *)
Definition endsWith (s suffix : string) : bool :=
  let n := String.length s in
  let m := String.length suffix in
  if (m <=? n)%nat then String.eqb (substring (n - m) m s) suffix
  else false.

(** [list.includes(x)]. *)
Definition includes (l : list string) (x : string) : bool :=
  existsb (String.eqb x) l.

End JsString.

(** ** JavaScript numbers

    A number is NaN, an infinity or a finite value; finite values are kept
    as rationals (every binary64 value is one). The two zeros are not told
    apart: both are falsy. *)

Inductive number : Type :=
  | NaN
  | Infinity (negative : bool)
  | Finite (q : Q).

Module Number.

Definition of_Z (z : Z) : number := Finite (inject_Z z).
Definition of_N (n : N) : number := of_Z (Z.of_N n).

Definition isNaN (x : number) : bool :=
  match x with NaN => true | _ => false end.

(** [Number.isFinite(x)]. *)
Definition isFinite (x : number) : bool :=
  match x with Finite _ => true | _ => false end.


(** Truthiness: NaN and zero are falsy. *)
Definition truthy (x : number) : bool :=
  match x with
  | NaN => false
  | Infinity _ => true
  | Finite q => negb (Qnum q =? 0)
  end.

(** [a || b]. *)
Definition or (a b : number) : number := if truthy a then a else b.

End Number.

(** ** Files and the validator *)

Module File.
(** A [File]: its name, its declared mime type and its bytes. *)
Record t : Type := mk {
  name : string;
  type : string;
  content : list Z;
}.
End File.

Definition ACCEPTED_TYPES : list string :=
  ["image/png"; "image/jpeg"; "image/jpg"; "image/svg+xml"]%string.

Definition DEFAULT_SVG_SIZE : number := Number.of_Z 256.

Definition isAcceptedFile (file : File.t) : bool :=
  if JsString.includes ACCEPTED_TYPES (File.type file) then true
  else
    let extension :=
      JsString.or_empty
        (JsString.pop
           (JsString.split "." (JsString.toLowerCase (File.name file)))) in
    JsString.includes ["png"; "jpg"; "jpeg"; "svg"]%string extension.

Definition getBaseName (filename : string) : string :=
  let parts := JsString.split "." filename in
  if (length parts =? 1)%nat then filename
  else
    let parts := removelast parts in
    JsString.join "." parts.

(** ** The browser

    What the page asks of its host, none of it code of the repository. The
    collaborators are deterministic: each answers as a function of what the
    page hands it. *)

(** A loaded [HTMLImageElement]: the blob behind its [src] and the intrinsic
    size the decoder found. *)
Record Image : Type := mkImage {
  image_src : Blob;
  naturalWidth : N;
  naturalHeight : N;
}.

Inductive CanvasOp : Type :=
  | ClearRect (x y w h : number)
  | DrawImage (image : Image) (dx dy dw dh : number).

(** A canvas: its size and what was drawn on it, oldest first. *)
Record Canvas : Type := mkCanvas {
  canvas_width : number;
  canvas_height : number;
  canvas_ops : list CanvasOp;
}.

(** The part of the DOM [parseSvgSize] touches: [getAttribute] answers
    [null] for a missing attribute, [querySelector] for no match. *)
Record Element : Type := mkElement {
  getAttribute : string → option string;
}.

Record Document : Type := mkDocument {
  querySelector : string → option Element;
}.

Record Browser : Type := mkBrowser {
  (** the global [parseFloat] *)
  parseFloat : string → number;
  (** [new DOMParser().parseFromString(text, mime)] *)
  parseFromString : string → string → outcome Document;
  (** [await file.text()] *)
  file_text : File.t → outcome string;
  (** loading an [Image] from a blob: its intrinsic size on [onload],
      [None] on [onerror] *)
  image_decode : Blob → option (N * N);
  (** whether [canvas.getContext("2d")] yields a context for the canvas
      created while this file is processed *)
  getContext2d : File.t → bool;
  (** [canvas.toBlob(callback, type, quality)]: the blob handed to the
      callback, [None] for [null] *)
  canvas_toBlob : Canvas → string → option number → option Blob;
  (** [await zip.generateAsync({ type: "blob" })] on the entries of the
      archive *)
  generateAsync : gmap string Blob → outcome Blob;
}.

(** ** The SVG sizing heuristic *)

Record SvgSize : Type := mkSize {
  width : number;
  height : number;
}.

(** [try { body } catch { handler }] around a computation that returns. *)
Definition try_catch {A : Type} (body : outcome A) (handler : exn → A) : A :=
  match body with
  | Ok a => a
  | Throw e => handler e
  end.

(** A string in a condition: [null] and the empty string are falsy. *)
Definition truthy_string (x : option string) : bool :=
  match x with
  | Some (String _ _) => true
  | _ => false
  end.

Definition parseSvgSize (B : Browser) (svgText : string) : SvgSize :=
  try_catch
    (doc ← parseFromString B svgText "image/svg+xml";
     match querySelector doc "svg" with
     | None => mret (mkSize DEFAULT_SVG_SIZE DEFAULT_SVG_SIZE)
     | Some svg =>
         let widthAttr := JsString.or_empty (getAttribute svg "width") in
         let heightAttr := JsString.or_empty (getAttribute svg "height") in
         let width := parseFloat B widthAttr in
         let height := parseFloat B heightAttr in
         if Number.isFinite width && Number.isFinite height
         then mret (mkSize width height)
         else
           let viewBox := getAttribute svg "viewBox" in
           if truthy_string viewBox
           then
             let parts :=
               parseFloat B
                 <$> JsString.split_spaces (JsString.or_empty viewBox) in
             if (length parts =? 4)%nat && forallb Number.isFinite parts
             then mret (mkSize (nth 2 parts NaN) (nth 3 parts NaN))
             else mret (mkSize DEFAULT_SVG_SIZE DEFAULT_SVG_SIZE)
           else mret (mkSize DEFAULT_SVG_SIZE DEFAULT_SVG_SIZE)
     end)
    (λ _, mkSize DEFAULT_SVG_SIZE DEFAULT_SVG_SIZE).

(** ** The page state *)

Inductive Status : Type := ready | working | done | error.

#[global] Instance Status_eq_dec : EqDecision Status.
Proof. solve_decision. Defined.

Module ConversionItem.
Record t : Type := mk {
  name : string;
  status : Status;
  detail : option string;
}.

(** A [Partial<ConversionItem>]: the properties the patch carries. A
    property carried with the value [undefined] is [Some None]. *)
Record patch : Type := mkPatch {
  patch_name : option string;
  patch_status : option Status;
  patch_detail : option (option string);
}.

(** [{ ...item, ...patch }] *)
Definition spread (item : t) (p : patch) : t :=
  mk (default (name item) (patch_name p))
     (default (status item) (patch_status p))
     (default (detail item) (patch_detail p)).
End ConversionItem.

Inductive Mode : Type := webp | ico.

(** The React state of [Home], the browser state the page acts on, and the
    two mutable locals of a running [convertAll]. [history] records every
    item list handed to React, oldest first: it is read by no code. *)
Record World : Type := mkWorld {
  items : list ConversionItem.t;
  files : list File.t;
  busy : bool;
  quality : number;
  iconSize : Z;
  object_urls : gmap nat Blob;
  next_url : nat;
  downloaded : list (string * Blob);
  zip : gmap string Blob;
  revoke : option nat;
  history : list (list ConversionItem.t);
}.

(** ** Stateful computations that may throw *)

Definition M (A : Type) : Type := World → outcome A * World.

#[global] Instance M_ret : MRet M := λ _ a w, (Ok a, w).
#[global] Instance M_bind : MBind M := λ _ _ f m w,
  match m w with
  | (Ok a, w') => f a w'
  | (Throw e, w') => (Throw e, w')
  end.

Definition throw {A : Type} (e : exn) : M A := λ w, (Throw e, w).
Definition get : M World := λ w, (Ok w, w).
Definition modify (f : World → World) : M unit := λ w, (Ok tt, f w).
Definition lift {A : Type} (r : outcome A) : M A := λ w, (r, w).

(** [try { body } catch (error) { handler } finally { cleanup }] *)
Definition try_catch_finally {A : Type}
    (body : M A) (handler : exn → M A) (cleanup : M unit) : M A := λ w,
  let '(r, w1) :=
    match body w with
    | (Ok a, w1) => (Ok a, w1)
    | (Throw e, w1) => handler e w1
    end in
  match cleanup w1 with
  | (Ok _, w2) => (r, w2)
  | (Throw e, w2) => (Throw e, w2)
  end.

(** [try { body } finally { cleanup }] *)
Definition try_finally {A : Type} (body : M A) (cleanup : M unit) : M A :=
  try_catch_finally body throw cleanup.

(** [for (const x of l) { body x }] *)
Fixpoint for_of {A : Type} (l : list A) (body : A → M unit) : M unit :=
  match l with
  | [] => mret tt
  | x :: rest => body x;; for_of rest body
  end.

(** ** State updates *)

Definition with_items (v : list ConversionItem.t) (w : World) : World :=
  mkWorld v (files w) (busy w) (quality w) (iconSize w) (object_urls w)
    (next_url w) (downloaded w) (zip w) (revoke w) (history w ++ [v]).

Definition with_files (v : list File.t) (w : World) : World :=
  mkWorld (items w) v (busy w) (quality w) (iconSize w) (object_urls w)
    (next_url w) (downloaded w) (zip w) (revoke w) (history w).

Definition with_busy (v : bool) (w : World) : World :=
  mkWorld (items w) (files w) v (quality w) (iconSize w) (object_urls w)
    (next_url w) (downloaded w) (zip w) (revoke w) (history w).

Definition with_quality (v : number) (w : World) : World :=
  mkWorld (items w) (files w) (busy w) v (iconSize w) (object_urls w)
    (next_url w) (downloaded w) (zip w) (revoke w) (history w).

Definition with_iconSize (v : Z) (w : World) : World :=
  mkWorld (items w) (files w) (busy w) (quality w) v (object_urls w)
    (next_url w) (downloaded w) (zip w) (revoke w) (history w).

Definition with_object_urls (v : gmap nat Blob) (n : nat) (w : World)
  : World :=
  mkWorld (items w) (files w) (busy w) (quality w) (iconSize w) v
    n (downloaded w) (zip w) (revoke w) (history w).

Definition with_downloaded (v : list (string * Blob)) (w : World) : World :=
  mkWorld (items w) (files w) (busy w) (quality w) (iconSize w)
    (object_urls w) (next_url w) v (zip w) (revoke w) (history w).

Definition with_zip (v : gmap string Blob) (w : World) : World :=
  mkWorld (items w) (files w) (busy w) (quality w) (iconSize w)
    (object_urls w) (next_url w) (downloaded w) v (revoke w) (history w).

Definition with_revoke (v : option nat) (w : World) : World :=
  mkWorld (items w) (files w) (busy w) (quality w) (iconSize w)
    (object_urls w) (next_url w) (downloaded w) (zip w) v (history w).

(** [setItems(f)], [setFiles(v)], [setBusy(v)] *)
Definition setItems (f : list ConversionItem.t → list ConversionItem.t)
  : M unit := modify (λ w, with_items (f (items w)) w).
Definition setFiles (v : list File.t) : M unit := modify (with_files v).
Definition setBusy (v : bool) : M unit := modify (with_busy v).

(** [URL.createObjectURL(blob)]: a URL never handed out before. *)
Definition createObjectURL (blob : Blob) : M nat := λ w,
  (Ok (next_url w),
   with_object_urls (<[next_url w := blob]> (object_urls w))
     (S (next_url w)) w).

(** [URL.revokeObjectURL(url)] *)
Definition revokeObjectURL (url : nat) : M unit :=
  modify (λ w, with_object_urls (delete url (object_urls w)) (next_url w) w).

(** [link.href = url; link.download = filename; link.click()]: the browser
    saves what the URL stands for. *)
Definition link_click (url : nat) (filename : string) : M unit :=
  modify (λ w,
    match object_urls w !! url with
    | Some blob => with_downloaded (downloaded w ++ [(filename, blob)]) w
    | None => w
    end).

Definition downloadBlob (blob : Blob) (filename : string) : M unit :=
  url ← createObjectURL blob;
  link_click url filename;;
  revokeObjectURL url.

(** [zip.file(name, blob)], for a name without a path separator: an entry
    of that name is replaced. *)
Definition zip_file (name : string) (blob : Blob) : M unit :=
  modify (λ w, with_zip (<[name := blob]> (zip w)) w).

(** ** Intake *)

Definition syncItems (nextFiles : list File.t) : M unit :=
  setItems (λ _,
    (λ file, ConversionItem.mk (File.name file) ready None) <$> nextFiles).

Definition handleFiles (incoming : list File.t) : M unit :=
  let filtered := List.filter isAcceptedFile incoming in
  setFiles filtered;;
  syncItems filtered.

Definition updateItem (name : string) (patch : ConversionItem.patch)
  : M unit :=
  setItems (λ prev,
    (λ item,
       if String.eqb (ConversionItem.name item) name
       then ConversionItem.spread item patch
       else item) <$> prev).

(** ** Decoding *)

Module Loaded.
(** What [loadImageFromFile] resolves to; [revoke] is the URL its
    closure revokes. *)
Record t : Type := mk {
  img : Image;
  width : number;
  height : number;
  revoke : nat;
}.
End Loaded.

(** The bytes of [new Blob([text])], for a text of 7-bit characters (the
    built-in writes UTF-8, one byte for each of these). *)
Definition bytes_of_text (text : string) : list Z :=
  (λ c, Z.of_nat (nat_of_ascii c)) <$> list_ascii_of_string text.

Section Pipeline.

Context (B : Browser).

(** [img.src = objectUrl] and the wait for [onload] or [onerror]. *)
Definition load_image (objectUrl : nat) : M Image :=
  w ← get;
  match object_urls w !! objectUrl ≫= (λ blob,
          (λ '(nw, nh), mkImage blob nw nh) <$> image_decode B blob) with
  | Some img => mret img
  | None => throw (JsError "Image load failed")
  end.

Definition loadImageFromFile (file : File.t) : M Loaded.t :=
  let isSvg :=
    String.eqb (File.type file) "image/svg+xml"
    || JsString.endsWith (JsString.toLowerCase (File.name file)) ".svg" in
  let svgSize := mkSize (Number.of_Z 0) (Number.of_Z 0) in
  objectUrl ← createObjectURL (mkBlob (File.content file) (File.type file));
  '(svgSize, objectUrl) ←
    (if isSvg
     then
       svgText ← lift (file_text B file);
       let svgSize := parseSvgSize B svgText in
       let svgBlob := mkBlob (bytes_of_text svgText) "image/svg+xml" in
       objectUrl ← createObjectURL svgBlob;
       mret (svgSize, objectUrl)
     else mret (svgSize, objectUrl));
  img ← load_image objectUrl;
  let width :=
    Number.or (Number.or (width svgSize) (Number.of_N (naturalWidth img)))
      DEFAULT_SVG_SIZE in
  let height :=
    Number.or (Number.or (height svgSize) (Number.of_N (naturalHeight img)))
      DEFAULT_SVG_SIZE in
  mret (Loaded.mk img width height objectUrl).

(** ** Rasterizing and encoding *)

(** [document.createElement("canvas")] *)
Definition createElement_canvas : Canvas :=
  mkCanvas (Number.of_Z 300) (Number.of_Z 150) [].

(** Assigning [canvas.width] or [canvas.height] clears the canvas. *)
Definition set_width (v : number) (c : Canvas) : Canvas :=
  mkCanvas v (canvas_height c) [].
Definition set_height (v : number) (c : Canvas) : Canvas :=
  mkCanvas (canvas_width c) v [].
Definition draw (op : CanvasOp) (c : Canvas) : Canvas :=
  mkCanvas (canvas_width c) (canvas_height c) (canvas_ops c ++ [op]).

(** The promise around [canvas.toBlob]: it rejects when the callback gets
    [null]. The canvas calls themselves ([toBlob], [clearRect],
    [drawImage]) and [blob.arrayBuffer()] are taken not to throw. *)
Definition canvasToBlob (canvas : Canvas) (type : string)
    (quality : option number) : M Blob :=
  match canvas_toBlob B canvas type quality with
  | Some blob => mret blob
  | None => throw (JsError "Canvas export failed")
  end.

(** ** The orchestrator *)

(** The body of the loop of [convertAll], for one file. *)
Definition convertFile (mode : Mode) (isSingle : bool) (quality : number)
    (iconSize : Z) (file : File.t) : M unit :=
  updateItem (File.name file)
    (ConversionItem.mkPatch None (Some working) (Some None));;
  modify (with_revoke None);;
  try_catch_finally
    (loaded ← loadImageFromFile file;
     modify (with_revoke (Some (Loaded.revoke loaded)));;
     let img := Loaded.img loaded in
     let width := Loaded.width loaded in
     let height := Loaded.height loaded in
     let canvas := createElement_canvas in
     (if getContext2d B file then mret tt
      else throw (JsError "Canvas unavailable"));;
     let baseName := getBaseName (File.name file) in
     match mode with
     | webp =>
         let canvas := set_width width canvas in
         let canvas := set_height height canvas in
         let zero := Number.of_Z 0 in
         let canvas := draw (ClearRect zero zero width height) canvas in
         let canvas := draw (DrawImage img zero zero width height) canvas in
         webpBlob ← canvasToBlob canvas "image/webp" (Some quality);
         if isSingle
         then downloadBlob webpBlob (String.append baseName ".webp")
         else zip_file (String.append baseName ".webp") webpBlob
     | ico =>
         let size := Number.of_Z iconSize in
         let canvas := set_width size canvas in
         let canvas := set_height size canvas in
         let zero := Number.of_Z 0 in
         let canvas := draw (ClearRect zero zero size size) canvas in
         let canvas := draw (DrawImage img zero zero size size) canvas in
         pngBlob ← canvasToBlob canvas "image/png" None;
         let pngBuffer := blob_data pngBlob in
         icoBlob ← lift (buildIcoBlob pngBuffer iconSize);
         if isSingle
         then downloadBlob icoBlob (String.append baseName ".ico")
         else zip_file (String.append baseName ".ico") icoBlob
     end;;
     updateItem (File.name file)
       (ConversionItem.mkPatch None (Some done) None))
    (λ thrown,
       let message :=
         match thrown with
         | JsError message => message
         | JsThrown => "Failed"%string
         end in
       updateItem (File.name file)
         (ConversionItem.mkPatch None (Some error) (Some (Some message))))
    (w ← get;
     match revoke w with
     | Some url => revokeObjectURL url
     | None => mret tt
     end).

(** [convertAll(mode)] as the closure of one render: [files], [busy],
    [quality] and [iconSize] are the values that render captured. *)
Definition convertAll_of (files : list File.t) (busy : bool)
    (quality : number) (iconSize : Z) (mode : Mode) : M unit :=
  if (length files =? 0)%nat || busy then mret tt
  else
    setBusy true;;
    modify (with_zip ∅);;
    try_finally
      (let isSingle := (length files =? 1)%nat in
       for_of files (convertFile mode isSingle quality iconSize);;
       if (1 <? length files)%nat
       then
         w ← get;
         zipBlob ← lift (generateAsync B (zip w));
         let zipName :=
           match mode with
           | webp => "webp-conversions.zip"%string
           | ico => "ico-icons.zip"%string
           end in
         downloadBlob zipBlob zipName
       else mret tt)
      (setBusy false).

(** A click on a convert button: the closure of the current render. *)
Definition convertAll (mode : Mode) : M unit :=
  w ← get; convertAll_of (files w) (busy w) (quality w) (iconSize w) mode.

End Pipeline.

(** [clearAll] *)
Definition clearAll : M unit :=
  setFiles [];;
  setItems (λ _, []).

(** The page as first rendered. *)
Definition initial : World :=
  mkWorld [] [] false (Finite (82 # 100)) 256 ∅ 0 [] ∅ None [].

(** ** A reference browser

    A concrete host, for running the page on concrete inputs. Its
    [parseFloat] reads the decimal literal a string starts with and gives
    its exact value (the built-in's value whenever that value is a binary64
    number); its DOM parser knows the documents listed in [known_documents];
    an image decodes unless its blob is empty; the canvas encoder answers
    with the bytes of the image drawn last. *)

Module Reference.

Definition digit_of (c : ascii) : option Z :=
  let n := nat_of_ascii c in
  if ((48 <=? n) && (n <=? 57))%nat then Some (Z.of_nat (n - 48)) else None.

(** Reads digits: the value accumulated, how many were read, the rest. *)
Fixpoint read_digits (s : list ascii) (acc : Z) (count : nat)
  : Z * nat * list ascii :=
  match s with
  | c :: s' =>
      match digit_of c with
      | Some d => read_digits s' (10 * acc + d) (S count)
      | None => (acc, count, s)
      end
  | [] => (acc, count, [])
  end.

Definition read_sign (s : list ascii) : bool * list ascii :=
  match s with
  | "-"%char :: s' => (true, s')
  | "+"%char :: s' => (false, s')
  | _ => (false, s)
  end.

Definition starts_with (p : string) (s : list ascii) : bool :=
  bool_decide (take (String.length p) s = list_ascii_of_string p).

Fixpoint skip_spaces (s : list ascii) : list ascii :=
  match s with
  | c :: s' => if JsString.is_space c then skip_spaces s' else s
  | [] => []
  end.

Definition parseFloat (str : string) : number :=
  let s := skip_spaces (list_ascii_of_string str) in
  let '(neg, s) := read_sign s in
  if starts_with "Infinity" s then Infinity neg
  else
    let '(ip, ni, s) := read_digits s 0 0 in
    let '(m, nf, s) :=
      match s with
      | "."%char :: s' => read_digits s' ip 0
      | _ => (ip, 0%nat, s)
      end in
    if (ni + nf =? 0)%nat then NaN
    else
      let e :=
        match s with
        | c :: s' =>
            if Ascii.eqb c "e" || Ascii.eqb c "E"
            then
              let '(eneg, s'') := read_sign s' in
              let '(ev, ne, _) := read_digits s'' 0 0 in
              if (ne =? 0)%nat then 0 else if eneg then - ev else ev
            else 0
        | [] => 0
        end in
      let e' := e - Z.of_nat nf in
      let m := if neg then - m else m in
      Finite (Qred (if 0 <=? e' then inject_Z (m * 10 ^ e')
                    else Qmake m (Z.to_pos (10 ^ (- e'))))).

(** An element with the given attributes. *)
Definition element (attributes : list (string * string)) : Element :=
  mkElement (λ name,
    snd <$> List.find (λ kv, String.eqb (fst kv) name) attributes).

(** A document whose root is an [svg] element with these attributes. *)
Definition svg_document (attributes : list (string * string)) : Document :=
  mkDocument (λ selector,
    if String.eqb selector "svg" then Some (element attributes) else None).

(** The document of a parse error: no [svg] element. *)
Definition parsererror_document : Document := mkDocument (λ _, None).

Definition svg_48 : string :=
  "<svg xmlns='http://www.w3.org/2000/svg' width='48' height='48'/>".
Definition svg_viewBox_64 : string :=
  "<svg xmlns='http://www.w3.org/2000/svg' viewBox='0 0 64 64'/>".
Definition svg_bare : string :=
  "<svg xmlns='http://www.w3.org/2000/svg'/>".
Definition svg_fractional : string :=
  "<svg xmlns='http://www.w3.org/2000/svg' width='10.5' height='10.5'/>".
Definition svg_broken : string := "<svg width='48' height=".

Definition known_documents : list (string * Document) :=
  [ (svg_48, svg_document [("width", "48"); ("height", "48")]%string);
    (svg_viewBox_64, svg_document [("viewBox", "0 0 64 64")]%string);
    (svg_bare, svg_document []);
    (svg_fractional,
      svg_document [("width", "10.5"); ("height", "10.5")]%string) ].

Definition parseFromString (text mime : string) : outcome Document :=
  Ok (default parsererror_document
        (snd <$> List.find (λ kv, String.eqb (fst kv) text)
                   known_documents)).

Definition text_of_bytes (bytes : list Z) : string :=
  string_of_list_ascii ((λ b, ascii_of_nat (Z.to_nat b)) <$> bytes).

Definition image_decode (blob : Blob) : option (N * N) :=
  match blob_data blob with
  | [] => None
  | _ => Some (16%N, 16%N)
  end.

Definition canvas_toBlob (canvas : Canvas) (type : string)
    (quality : option number) : option Blob :=
  match last (canvas_ops canvas) with
  | Some (DrawImage image _ _ _ _) =>
      Some (mkBlob (blob_data (image_src image)) type)
  | _ => None
  end.

Definition generateAsync (entries : gmap string Blob) : outcome Blob :=
  Ok (mkBlob [Z.of_nat (size entries)] "application/zip").

Definition browser : Browser :=
  mkBrowser parseFloat parseFromString
    (λ file, Ok (text_of_bytes (File.content file)))
    image_decode (λ _, true) canvas_toBlob generateAsync.

(** A file holding [text]. *)
Definition text_file (name type text : string) : File.t :=
  File.mk name type (bytes_of_text text).

(** Sample files; the ones without bytes do not decode. *)
Definition a_png : File.t := File.mk "a.png" "image/png" [137; 80; 78; 71].
Definition c_png : File.t := File.mk "c.png" "image/png" [137; 80; 78; 72].
Definition a_jpg : File.t := File.mk "a.jpg" "image/jpeg" [255; 216; 255].
Definition corrupt_b_png : File.t := File.mk "b.png" "image/png" [].
Definition corrupt_d_png : File.t := File.mk "d.png" "image/png" [].
Definition corrupt_a_png : File.t := File.mk "a.png" "image/png" [].
Definition fractional_svg : File.t :=
  text_file "icon.svg" "image/svg+xml" svg_fractional.

(** The page after the user has dropped [incoming] on a fresh page, and
    after a click on a convert button. *)
Definition dropped (incoming : list File.t) : World :=
  snd (handleFiles incoming initial).
Definition clicked (mode : Mode) (w : World) : World :=
  snd (convertAll browser mode w).

End Reference.

(** ** Definitions used to state the properties *)

(** The 22-byte header of a single-image icon container, for the byte
    written in the width and height fields and the value written in the
    data-size field. *)
Definition ico_header (size_byte data_size : Z) : list Z :=
  [0; 0; 1; 0; 1; 0; size_byte; size_byte; 0; 0; 1; 0; 32; 0;
   Z.land data_size 255; Z.land (data_size ≫ 8) 255;
   Z.land (data_size ≫ 16) 255; Z.land (data_size ≫ 24) 255;
   22; 0; 0; 0].

(** What the validator compares with its list of extensions, read off the
    name itself: the characters after its last dot, and the whole name when
    it has no dot. *)
Fixpoint has_dot (s : string) : bool :=
  match s with
  | EmptyString => false
  | String c s' => Ascii.eqb c "." || has_dot s'
  end.

Fixpoint extension_of (s : string) : string :=
  match s with
  | EmptyString => EmptyString
  | String c s' =>
      if has_dot s' then extension_of s'
      else if Ascii.eqb c "." then s' else s
  end.

(** The three tests [parseSvgSize] makes, in its order: an svg element, a
    width and a height [parseFloat] reads a finite number off, a viewBox
    that [split(/\s+/)] cuts in four of which [parseFloat] reads a finite
    number off each. *)
Definition root_svg (B : Browser) (svgText : string) : option Element :=
  match parseFromString B svgText "image/svg+xml" with
  | Ok doc => querySelector doc "svg"
  | Throw _ => None
  end.

Definition declared_size (B : Browser) (svg : Element)
  : option (number * number) :=
  let w := parseFloat B (default EmptyString (getAttribute svg "width")) in
  let h := parseFloat B (default EmptyString (getAttribute svg "height")) in
  if Number.isFinite w && Number.isFinite h then Some (w, h) else None.

Definition viewBox_size (B : Browser) (svg : Element)
  : option (number * number) :=
  viewBox ← getAttribute svg "viewBox";
  match parseFloat B <$> JsString.split_spaces viewBox with
  | [x; y; w; h] =>
      if forallb Number.isFinite [x; y; w; h] then Some (w, h) else None
  | _ => None
  end.

(** The test [loadImageFromFile] makes to treat a file as SVG. *)
Definition is_svg_file (file : File.t) : bool :=
  String.eqb (File.type file) "image/svg+xml"
  || JsString.endsWith (JsString.toLowerCase (File.name file)) ".svg".

(** ** The pipeline of one file, as a function

    What [loadImageFromFile] and the loop body compute for a file, with the
    page state left out: the blob the image is loaded from, the decoded
    source image, and the named artifact or the exception. *)

Definition source_blob (B : Browser) (file : File.t)
  : outcome (SvgSize * Blob) :=
  if is_svg_file file
  then
    svgText ← file_text B file;
    mret (parseSvgSize B svgText,
          mkBlob (bytes_of_text svgText) "image/svg+xml")
  else
    mret (mkSize (Number.of_Z 0) (Number.of_Z 0),
          mkBlob (File.content file) (File.type file)).

Definition decoded (B : Browser) (file : File.t)
  : outcome (Image * number * number) :=
  '(svgSize, blob) ← source_blob B file;
  match image_decode B blob with
  | Some (nw, nh) =>
      mret (mkImage blob nw nh,
            Number.or (Number.or (width svgSize) (Number.of_N nw))
              DEFAULT_SVG_SIZE,
            Number.or (Number.or (height svgSize) (Number.of_N nh))
              DEFAULT_SVG_SIZE)
  | None => Throw (JsError "Image load failed")
  end.

(** The canvas after [canvas.width = w; canvas.height = h; clearRect;
    drawImage]. *)
Definition painted (image : Image) (w h : number) : Canvas :=
  mkCanvas w h
    [ClearRect (Number.of_Z 0) (Number.of_Z 0) w h;
     DrawImage image (Number.of_Z 0) (Number.of_Z 0) w h].

Definition extension (mode : Mode) : string :=
  match mode with webp => "webp" | ico => "ico" end.

(** [<base-name>.<ext>] *)
Definition output_name (mode : Mode) (file : File.t) : string :=
  String.append (getBaseName (File.name file))
    (String.append "." (extension mode)).

Definition artifact (B : Browser) (mode : Mode) (quality : number)
    (iconSize : Z) (file : File.t) : outcome (string * Blob) :=
  '(image, w, h) ← decoded B file;
  if getContext2d B file
  then
    match mode with
    | webp =>
        match canvas_toBlob B (painted image w h) "image/webp"
                (Some quality) with
        | Some blob => mret (output_name webp file, blob)
        | None => Throw (JsError "Canvas export failed")
        end
    | ico =>
        match canvas_toBlob B
                (painted image (Number.of_Z iconSize) (Number.of_Z iconSize))
                "image/png" None with
        | Some png =>
            blob ← buildIcoBlob (blob_data png) iconSize;
            mret (output_name ico file, blob)
        | None => Throw (JsError "Canvas export failed")
        end
    end
  else Throw (JsError "Canvas unavailable").

(** ** The item list and the outputs of a run, as functions *)

(** The map inside [updateItem]. *)
Definition patched (name : string) (p : ConversionItem.patch)
    (l : list ConversionItem.t) : list ConversionItem.t :=
  (λ item,
     if String.eqb (ConversionItem.name item) name
     then ConversionItem.spread item p
     else item) <$> l.

Definition message_of (e : exn) : string :=
  match e with
  | JsError message => message
  | JsThrown => "Failed"
  end.

Definition working_patch : ConversionItem.patch :=
  ConversionItem.mkPatch None (Some working) (Some None).

Definition settle_patch {A : Type} (r : outcome A) : ConversionItem.patch :=
  match r with
  | Ok _ => ConversionItem.mkPatch None (Some done) None
  | Throw e =>
      ConversionItem.mkPatch None (Some error) (Some (Some (message_of e)))
  end.

(** One pass of the loop is described by the name of its file and the
    outcome of its pipeline. *)
Definition pass : Type := string * outcome (string * Blob).

Definition passes (B : Browser) (mode : Mode) (quality : number)
    (iconSize : Z) (files : list File.t) : list pass :=
  (λ file, (File.name file, artifact B mode quality iconSize file)) <$> files.

Definition after_pass (l : list ConversionItem.t) (p : pass)
  : list ConversionItem.t :=
  patched p.1 (settle_patch p.2) (patched p.1 working_patch l).

(** The item lists handed to React while the passes run. *)
Fixpoint snapshots (l : list ConversionItem.t) (ps : list pass)
  : list (list ConversionItem.t) :=
  match ps with
  | [] => []
  | p :: ps' =>
      patched p.1 working_patch l :: after_pass l p
      :: snapshots (after_pass l p) ps'
  end.

Definition delivered (r : outcome (string * Blob)) : list (string * Blob) :=
  match r with
  | Ok a => [a]
  | Throw _ => []
  end.

Definition archived (z : gmap string Blob) (p : pass) : gmap string Blob :=
  match p.2 with
  | Ok (name, blob) => <[name := blob]> z
  | Throw _ => z
  end.

Definition archive_name (mode : Mode) : string :=
  match mode with
  | webp => "webp-conversions.zip"
  | ico => "ico-icons.zip"
  end.

(** The item a pass ends as, from the outcome of its own pipeline, and the
    Ready item intake creates. *)
Definition settled (p : pass) : ConversionItem.t :=
  match p.2 with
  | Ok _ => ConversionItem.mk p.1 done None
  | Throw e => ConversionItem.mk p.1 error (Some (message_of e))
  end.

Definition fresh (name : string) : ConversionItem.t :=
  ConversionItem.mk name ready None.

Definition succeeded {A : Type} (r : outcome A) : bool :=
  match r with Ok _ => true | Throw _ => false end.

(** The names under which the passes put an entry in the archive. *)
Definition archive_names (ps : list pass) : list string :=
  omap (λ p : pass,
          match p.2 with
          | Ok a => Some a.1
          | Throw _ => None
          end) ps.

(** The page after one pass of the loop, up to the object URLs and the
    [revoke] local. *)
Definition after_convertFile (isSingle : bool) (p : pass)
    (urls : gmap nat Blob) (n : nat) (r : option nat) (w : World) : World :=
  mkWorld (after_pass (items w) p) (files w) (busy w) (quality w) (iconSize w)
    urls n
    (downloaded w ++ (if isSingle then delivered p.2 else []))
    (if isSingle then zip w else archived (zip w) p)
    r
    ((history w ++ [patched p.1 working_patch (items w)])
     ++ [after_pass (items w) p]).

(** The page after the loop, up to the object URLs and the [revoke]
    local. *)
Definition after_loop (isSingle : bool) (ps : list pass)
    (urls : gmap nat Blob) (n : nat) (r : option nat) (w : World) : World :=
  mkWorld (foldl after_pass (items w) ps) (files w) (busy w) (quality w)
    (iconSize w) urls n
    (downloaded w ++ (if isSingle then ps ≫= (λ p, delivered p.2) else []))
    (if isSingle then zip w else foldl archived (zip w) ps)
    r
    (history w ++ snapshots (items w) ps).

(** What [convertAll] returns and the page it leaves, for a non-empty
    batch started while the page is not busy. *)
Definition finished (B : Browser) (mode : Mode) (batch : list File.t)
    (q : number) (size : Z)
    (urls : gmap nat Blob) (n : nat) (r : option nat) (w : World)
  : outcome unit * World :=
  let ps := passes B mode q size batch in
  let isSingle := (length batch =? 1)%nat in
  let entries := if isSingle then ∅ else foldl archived ∅ ps in
  let singles :=
    downloaded w ++ (if isSingle then ps ≫= (λ p, delivered p.2) else []) in
  let world dl :=
    mkWorld (foldl after_pass (items w) ps) (files w) false
      (quality w) (iconSize w) urls n dl entries r
      (history w ++ snapshots (items w) ps) in
  if (1 <? length batch)%nat
  then
    match generateAsync B entries with
    | Ok zipBlob => (Ok tt, world (singles ++ [(archive_name mode, zipBlob)]))
    | Throw e => (Throw e, world singles)
    end
  else (Ok tt, world singles).

(** ** Legal status changes *)

Definition transition_ok (a b : Status) : bool :=
  match a, b with
  | ready, working | working, done | working, error => true
  | _, _ => false
  end.

(** An item between two renders: the same item, its status unchanged or
    changed along a legal transition. *)
Definition item_step_ok (x y : ConversionItem.t) : bool :=
  String.eqb (ConversionItem.name x) (ConversionItem.name y)
  && (bool_decide (ConversionItem.status x = ConversionItem.status y)
      || transition_ok (ConversionItem.status x) (ConversionItem.status y)).

Fixpoint step_ok (before after : list ConversionItem.t) : bool :=
  match before, after with
  | [], [] => true
  | x :: before', y :: after' => item_step_ok x y && step_ok before' after'
  | _, _ => false
  end.

Fixpoint monotonic (h : list (list ConversionItem.t)) : bool :=
  match h with
  | a :: rest =>
      match rest with
      | b :: _ => step_ok a b && monotonic rest
      | [] => true
      end
  | [] => true
  end.

(** ** The summary line *)

Module Summary.
Record t : Type := mk {
  total : nat;
  done : nat;
  errors : nat;
}.
End Summary.

(** The [summary] memo of [Home], as a function of the items. *)
Definition summary (items : list ConversionItem.t) : Summary.t :=
  Summary.mk (length items)
    (length (List.filter
               (λ item, bool_decide (ConversionItem.status item = done))
               items))
    (length (List.filter
               (λ item, bool_decide (ConversionItem.status item = error))
               items)).

(** ** Definitions used to state the further properties *)

(** Whether a string has a character that [\s] matches. *)
Fixpoint has_space (s : string) : bool :=
  match s with
  | EmptyString => false
  | String c s' => JsString.is_space c || has_space s'
  end.

(** The reference browser with a DOM parser that answers [doc] for every
    text. *)
Definition browser_with_document (doc : Document) : Browser :=
  mkBrowser Reference.parseFloat (λ _ _, Ok doc)
    (λ file, Ok (Reference.text_of_bytes (File.content file)))
    Reference.image_decode (λ _, true) Reference.canvas_toBlob
    Reference.generateAsync.

(** The reference browser with an archive writer that rejects. *)
Definition browser_with_failing_archive : Browser :=
  mkBrowser Reference.parseFloat Reference.parseFromString
    (λ file, Ok (Reference.text_of_bytes (File.content file)))
    Reference.image_decode (λ _, true) Reference.canvas_toBlob
    (λ _, Throw (JsError "archive failed")).

(** Every registered object URL was handed out before: the next URL is
    new. *)
Definition urls_fresh (w : World) : Prop :=
  ∀ url : nat, is_Some (object_urls w !! url) → (url < next_url w)%nat.

(** The blob behind [URL.createObjectURL(file)]. *)
Definition file_blob (file : File.t) : Blob :=
  mkBlob (File.content file) (File.type file).

(** The blobs whose object URLs a pass on [file] creates and does not
    revoke, in the order of their creation. *)
Definition leaked (B : Browser) (file : File.t) : list Blob :=
  if is_svg_file file
  then
    match file_text B file with
    | Ok svgText =>
        let svgBlob := mkBlob (bytes_of_text svgText) "image/svg+xml" in
        file_blob file
        :: match image_decode B svgBlob with
           | Some _ => []
           | None => [svgBlob]
           end
    | Throw _ => [file_blob file]
    end
  else
    match image_decode B (file_blob file) with
    | Some _ => []
    | None => [file_blob file]
    end.

(** The registry with [blobs] registered under the URLs [n], [n + 1],
    ... *)
Fixpoint register (blobs : list Blob) (n : nat) (m : gmap nat Blob)
  : gmap nat Blob :=
  match blobs with
  | [] => m
  | blob :: rest => register rest (S n) (<[n := blob]> m)
  end.

(** The registry [m'] and next URL [n'] reached from [m] and [n] by
    registering the blobs of [blobs], each under a URL of its own, and
    nothing else. *)
Definition grown_by (blobs : list Blob) (m m' : gmap nat Blob) (n n' : nat)
  : Prop :=
  (∀ url, is_Some (m' !! url) → (url < n')%nat)
  ∧ m ⊆ m'
  ∧ size m' = (size m + length blobs)%nat
  ∧ (n ≤ n')%nat
  ∧ (∀ url blob, m' !! url = Some blob →
                 m !! url = Some blob ∨ blob ∈ blobs).

(** ** Lower case and pieces, in words

    Independent of the built-ins of [JsString]: the alphabet written out,
    and what it means to cut a string at its runs of white space. *)

(** A letter in lower case, letter by letter. *)
Definition lowercase_letter (c : ascii) : ascii :=
  match c with
  | "A" => "a" | "B" => "b" | "C" => "c" | "D" => "d" | "E" => "e"
  | "F" => "f" | "G" => "g" | "H" => "h" | "I" => "i" | "J" => "j"
  | "K" => "k" | "L" => "l" | "M" => "m" | "N" => "n" | "O" => "o"
  | "P" => "p" | "Q" => "q" | "R" => "r" | "S" => "s" | "T" => "t"
  | "U" => "u" | "V" => "v" | "W" => "w" | "X" => "x" | "Y" => "y"
  | "Z" => "z"
  | _ => c
  end%char.

Fixpoint lowercase (s : string) : string :=
  match s with
  | EmptyString => EmptyString
  | String c s' => String (lowercase_letter c) (lowercase s')
  end.

Fixpoint all_space (s : string) : bool :=
  match s with
  | EmptyString => true
  | String c s' => JsString.is_space c && all_space s'
  end.

(** A run of white space: one character or more, all of them white
    space. *)
Definition blank (s : string) : bool :=
  match s with
  | EmptyString => false
  | String _ _ => all_space s
  end.

Definition starts_with_space (s : string) : bool :=
  match s with
  | EmptyString => false
  | String c _ => JsString.is_space c
  end.

(** [pieces s l]: [l] lists, in order, the pieces of [s] cut at its runs of
    white space. A piece has no white space in it; a run is taken whole, so
    that two pieces are never separated by more than one cut; the first
    piece is empty when [s] starts with white space, the last when it ends
    with white space. *)
Inductive pieces : string → list string → Prop :=
  | pieces_last (t : string) :
      has_space t = false → pieces t [t]
  | pieces_more (t b rest : string) (l : list string) :
      has_space t = false →
      blank b = true →
      starts_with_space rest = false →
      pieces rest l →
      pieces (String.append t (String.append b rest)) (t :: l).

(** ** Proof automation *)

(** Evaluates the page operations on an explicit world, innermost first. *)
Ltac run_world :=
  cbv beta iota zeta delta
    [with_items with_files with_busy with_quality with_iconSize
     with_object_urls with_downloaded with_zip with_revoke
     items files busy quality iconSize object_urls next_url downloaded zip
     revoke history
     mbind M_bind mret M_ret modify get throw lift updateItem setItems
     canvasToBlob zip_file try_catch_finally try_finally setBusy
     after_convertFile after_pass archived delivered patched fst snd
     outcome_bind outcome_ret settle_patch working_patch message_of
     Loaded.img Loaded.width Loaded.height Loaded.revoke].

(** Closes a branch of a pass: both sides are explicit worlds. *)
Ltac close_pass :=
  run_world; rewrite ?app_nil_r; by eexists _, _, _.

(** Evaluates a pass of the loop on an explicit world, and splits on what
    the browser answers next. *)
Ltac pass_step :=
  run_world;
  cbn [mbind option_bind fmap option_fmap option_map];
  repeat (rewrite lookup_insert_eq; run_world;
          cbn [mbind option_bind fmap option_fmap option_map]).

Ltac pass_case :=
  match goal with
  | |- context [image_decode ?B ?b] => destruct (image_decode B b) as [[? ?]|]
  | |- context [getContext2d ?B ?f] => destruct (getContext2d B f)
  | |- context [match ?m with webp => _ | ico => _ end] =>
      is_var m; destruct m
  | |- context [canvas_toBlob ?B ?c ?t ?q] =>
      destruct (canvas_toBlob B c t q)
  | |- context [if ?s then _ else _] => is_var s; destruct s
  end.

(** * Properties *)

(** ** The icon container *)

Example buildIcoBlob_3_bytes :
  buildIcoBlob [137; 80; 78] 32 =
  Ok (mkBlob [0; 0; 1; 0; 1; 0; 32; 32; 0; 0; 1; 0; 32; 0;
              3; 0; 0; 0; 22; 0; 0; 0; 137; 80; 78] "image/x-icon").
Proof. reflexivity. Qed.

Lemma land_255 (v : Z) : Z.land v 255 = v `mod` 256.
Proof. change 255 with (Z.ones 8). by rewrite Z.land_ones. Qed.

(** The four bytes [setUint32] writes, read back low byte first. *)
Lemma le_bytes_u32 (v : Z) :
  0 ≤ v < 4294967296 →
  Z.land v 255 + 256 * Z.land (v ≫ 8) 255 + 65536 * Z.land (v ≫ 16) 255
  + 16777216 * Z.land (v ≫ 24) 255 = v.
Proof.
  intros Hv. rewrite !land_255, !Z.shiftr_div_pow2 by lia.
  change (2 ^ 8) with 256. change (2 ^ 16) with 65536.
  change (2 ^ 24) with 16777216.
  Z.div_mod_to_equations. lia.
Qed.

(** None of the builder's writes is out of range, and its buffer is the
    header followed by the PNG bytes. *)
Lemma buildIcoBlob_layout (pngData : list Z) (size : Z) :
  buildIcoBlob pngData size =
  Ok (mkBlob
        (ico_header ((if size >=? 256 then 0 else size) `mod` 256)
           (Z.of_nat (length pngData) `mod` 4294967296) ++ pngData)
        "image/x-icon").
Proof.
  unfold buildIcoBlob, DataView.new_ArrayBuffer. cbn.
  unfold DataView.Uint8Array_set. cbn.
  rewrite length_replicate, Nat.leb_refl. cbn.
  rewrite drop_ge, app_nil_r by (by rewrite length_replicate).
  reflexivity.
Qed.

Lemma icon_size_byte (size : Z) :
  size ∈ [32; 64; 128; 256] →
  (if size >=? 256 then 0 else size) `mod` 256
  = if decide (size = 256) then 0 else size.
Proof.
  intros H. repeat (apply elem_of_cons in H as [->|H]); try done.
  by apply elem_of_nil in H.
Qed.

(** C1: for every PNG buffer of length L < 2^32 (a length the u32 field at
    offset 14 can hold) and every size S in {32, 64, 128, 256}, the builder
    returns a buffer of 22 + L bytes whose little-endian fields are u16 0 at
    offset 0, u16 1 at 2, u16 1 at 4, the byte (0 if S = 256, else S) at 6
    and at 7, the byte 0 at 8 and at 9, u16 1 at 10, u16 32 at 12, u32 L at
    14, u32 22 at 18, and whose bytes from offset 22 on are the PNG
    bytes. *)
Theorem buildIcoBlob_container (pngData : list Z) (size : Z) :
  size ∈ [32; 64; 128; 256] →
  Z.of_nat (length pngData) < 4294967296 →
  ∃ bytes : list Z,
    buildIcoBlob pngData size = Ok (mkBlob bytes "image/x-icon")
    ∧ length bytes = (22 + length pngData)%nat
    ∧ DataView.getUint16 bytes 0 true = Some 0
    ∧ DataView.getUint16 bytes 2 true = Some 1
    ∧ DataView.getUint16 bytes 4 true = Some 1
    ∧ DataView.getUint8 bytes 6 = Some (if decide (size = 256) then 0 else size)
    ∧ DataView.getUint8 bytes 7 = Some (if decide (size = 256) then 0 else size)
    ∧ DataView.getUint8 bytes 8 = Some 0
    ∧ DataView.getUint8 bytes 9 = Some 0
    ∧ DataView.getUint16 bytes 10 true = Some 1
    ∧ DataView.getUint16 bytes 12 true = Some 32
    ∧ DataView.getUint32 bytes 14 true = Some (Z.of_nat (length pngData))
    ∧ DataView.getUint32 bytes 18 true = Some 22
    ∧ drop 22 bytes = pngData.
Proof.
  intros Hsize Hlen. eexists. split; [apply buildIcoBlob_layout|].
  rewrite (icon_size_byte _ Hsize).
  rewrite (Z.mod_small (Z.of_nat (length pngData)) 4294967296) by lia.
  repeat split; try reflexivity.
  unfold DataView.getUint32. cbn. f_equal. apply le_bytes_u32. lia.
Qed.

Lemma buildIcoBlob_container_witness :
  ∃ bytes : list Z,
    buildIcoBlob [137; 80; 78] 32 = Ok (mkBlob bytes "image/x-icon")
    ∧ length bytes = 25%nat
    ∧ DataView.getUint16 bytes 0 true = Some 0
    ∧ DataView.getUint16 bytes 2 true = Some 1
    ∧ DataView.getUint16 bytes 4 true = Some 1
    ∧ DataView.getUint8 bytes 6 = Some 32
    ∧ DataView.getUint8 bytes 7 = Some 32
    ∧ DataView.getUint8 bytes 8 = Some 0
    ∧ DataView.getUint8 bytes 9 = Some 0
    ∧ DataView.getUint16 bytes 10 true = Some 1
    ∧ DataView.getUint16 bytes 12 true = Some 32
    ∧ DataView.getUint32 bytes 14 true = Some 3
    ∧ DataView.getUint32 bytes 18 true = Some 22
    ∧ drop 22 bytes = [137; 80; 78].
Proof.
  apply (buildIcoBlob_container [137; 80; 78] 32).
  - apply elem_of_cons. by left.
  - reflexivity.
Defined.

(** When the PNG is shorter than 2^32 bytes, the data-size field holds its
    length. *)
Corollary buildIcoBlob_data_size (pngData : list Z) (size : Z) (blob : Blob) :
  Z.of_nat (length pngData) < 4294967296 →
  buildIcoBlob pngData size = Ok blob →
  DataView.getUint32 (blob_data blob) 14 true
  = Some (Z.of_nat (length pngData)).
Proof.
  intros Hlt. rewrite buildIcoBlob_layout. intros [= <-].
  unfold DataView.getUint32. cbn. f_equal.
  rewrite <- (Z.mod_small (Z.of_nat (length pngData)) 4294967296) at 5 by lia.
  apply le_bytes_u32. apply Z.mod_pos_bound. lia.
Qed.

(** ** The validator *)

Lemma includes_elem_of (l : list string) (x : string) :
  JsString.includes l x = true ↔ x ∈ l.
Proof.
  unfold JsString.includes. induction l as [|y l IH]; cbn.
  - rewrite elem_of_nil. split; [discriminate|tauto].
  - rewrite elem_of_cons, orb_true_iff, IH, String.eqb_eq. tauto.
Qed.

Lemma split_not_nil (sep : ascii) (s : string) : JsString.split sep s ≠ [].
Proof. destruct s as [|c s]; cbn; [done|]. by repeat case_match. Qed.

Lemma split_no_dot (s : string) :
  has_dot s = false → JsString.split "." s = [s].
Proof.
  induction s as [|c s IH]; cbn; [done|].
  intros [Hc Hs]%orb_false_iff. rewrite Hc, (IH Hs). done.
Qed.

Lemma split_single (s hd : string) :
  JsString.split "." s = [hd] → has_dot s = false.
Proof.
  revert hd. induction s as [|c s IH]; cbn; intros hd; [done|].
  destruct (Ascii.eqb c ".") eqn:Hc; cbn.
  - intros [= _ E]. by apply split_not_nil in E.
  - destruct (JsString.split "." s) as [|hd1 [|hd2 tl]] eqn:E.
    + by apply split_not_nil in E.
    + intros _. by apply (IH hd1).
    + discriminate.
Qed.

(** The last piece of [split "."] is the extension. *)
Lemma pop_split_extension (s : string) :
  JsString.or_empty (JsString.pop (JsString.split "." s)) = extension_of s.
Proof.
  unfold JsString.or_empty, JsString.pop.
  induction s as [|c s IH]; cbn; [done|].
  destruct (has_dot s) eqn:Hdot.
  - rewrite <- IH. destruct (Ascii.eqb c ".").
    + destruct (JsString.split "." s) eqn:E; [by apply split_not_nil in E|done].
    + destruct (JsString.split "." s) as [|hd [|hd' tl]] eqn:E;
        [by apply split_not_nil in E| |done].
      apply split_single in E. congruence.
  - rewrite (split_no_dot _ Hdot). by destruct (Ascii.eqb c ".").
Qed.

(** The built-in lowers exactly the letters of the alphabet. *)
Lemma toLowerCase_lowercase (s : string) :
  JsString.toLowerCase s = lowercase s.
Proof.
  induction s as [|c s IH]; [done|]. cbn [JsString.toLowerCase lowercase].
  rewrite IH. f_equal. by destruct c as [[] [] [] [] [] [] [] []].
Qed.

(** C9 (as amended): a candidate file is accepted exactly when its declared
    type is one of image/png, image/jpeg, image/jpg, image/svg+xml, or the
    part of its name after the last dot, the whole name when it has no
    dot, is one of png, jpg, jpeg, svg once its letters are put in lower
    case; intake keeps the accepted files in order, creates one Ready item
    for each of them and none for the others, and raises no error. *)
Theorem validator_filters_silently
    (file : File.t) (incoming : list File.t) (w : World) :
  (isAcceptedFile file = true ↔
     File.type file
       ∈ ["image/png"; "image/jpeg"; "image/jpg"; "image/svg+xml"]%string
     ∨ extension_of (lowercase (File.name file))
       ∈ ["png"; "jpg"; "jpeg"; "svg"]%string)
  ∧ ∃ w' : World,
      handleFiles incoming w = (Ok tt, w')
      ∧ files w' = List.filter isAcceptedFile incoming
      ∧ items w'
        = (λ f, ConversionItem.mk (File.name f) ready None) <$> files w'
      ∧ (∀ f, f ∈ files w' ↔ f ∈ incoming ∧ isAcceptedFile f = true)
      ∧ (∀ item, item ∈ items w' →
           ∃ f, f ∈ incoming ∧ isAcceptedFile f = true
                ∧ ConversionItem.name item = File.name f).
Proof.
  split.
  - unfold isAcceptedFile. rewrite pop_split_extension, toLowerCase_lowercase.
    destruct (JsString.includes ACCEPTED_TYPES (File.type file)) eqn:Ht.
    + apply includes_elem_of in Ht. tauto.
    + rewrite includes_elem_of. split; [tauto|]. intros [Hty|Hext]; [|done].
      apply includes_elem_of in Hty. unfold ACCEPTED_TYPES in Ht. congruence.
  - eexists. split; [reflexivity|]. cbn.
    assert (Hfilter : ∀ f, f ∈ List.filter isAcceptedFile incoming
                           ↔ f ∈ incoming ∧ isAcceptedFile f = true).
    { intros f. rewrite !list_elem_of_In. apply filter_In. }
    split_and!; [done|done|apply Hfilter|].
    intros item (g & -> & Hg)%list_elem_of_fmap.
    exists g. apply Hfilter in Hg. tauto.
Qed.

(** A name in capitals with an extension, and no declared type: accepted
    for the extension, letter case set aside. *)
Lemma validator_filters_silently_witness :
  isAcceptedFile (File.mk "PHOTO.Jpeg" "" []) = true.
Proof.
  apply (proj1 (validator_filters_silently
                  (File.mk "PHOTO.Jpeg" "" []) [] initial)).
  right. by apply (bool_decide_unpack _).
Defined.

(** C9 (counterexample): a file named [png], with no dot in its name, hence
    no extension, and with no declared type, is accepted; and so is one
    named [SVG] that declares a type of another kind. *)
Lemma accepted_without_an_extension :
  has_dot "png" = false
  ∧ (File.type (File.mk "png" "" [])
     ∉ ["image/png"; "image/jpeg"; "image/jpg"; "image/svg+xml"]%string)
  ∧ isAcceptedFile (File.mk "png" "" []) = true
  ∧ has_dot "SVG" = false
  ∧ isAcceptedFile (File.mk "SVG" "application/octet-stream" []) = true.
Proof.
  split_and!; try reflexivity.
  by apply (bool_decide_unpack _).
Qed.

Example accepted_by_type :
  isAcceptedFile (File.mk "logo" "image/svg+xml" []) = true.
Proof. reflexivity. Qed.

Example accepted_by_extension :
  isAcceptedFile (File.mk "Photo.JPG" "" []) = true.
Proof. reflexivity. Qed.

Example rejected_gif :
  isAcceptedFile (File.mk "anim.gif" "image/gif" []) = false.
Proof. reflexivity. Qed.

(** A name without a dot is its own extension. *)
Example accepted_bare_name : isAcceptedFile (File.mk "png" "" []) = true.
Proof. reflexivity. Qed.

(** ** The SVG sizing heuristic *)

(** The size [parseSvgSize] resolves, by cases on its three sources. *)
Lemma parseSvgSize_resolved (B : Browser) (svgText : string) :
  parseSvgSize B svgText =
  match root_svg B svgText with
  | None => mkSize (Number.of_Z 256) (Number.of_Z 256)
  | Some svg =>
      match declared_size B svg with
      | Some (w, h) => mkSize w h
      | None =>
          match viewBox_size B svg with
          | Some (w, h) => mkSize w h
          | None => mkSize (Number.of_Z 256) (Number.of_Z 256)
          end
      end
  end.
Proof.
  unfold parseSvgSize, root_svg, try_catch.
  destruct (parseFromString B svgText "image/svg+xml") as [doc|e]; cbn; [|done].
  destruct (querySelector doc "svg") as [svg|]; cbn; [|done].
  unfold declared_size, JsString.or_empty.
  destruct (Number.isFinite (parseFloat B (default _ (getAttribute svg "width")))
            && Number.isFinite
                 (parseFloat B (default _ (getAttribute svg "height"))));
    cbn; [done|].
  unfold viewBox_size.
  destruct (getAttribute svg "viewBox") as [[|c vb]|]; [by cbn| |by cbn].
  change (default EmptyString (Some (String c vb))) with (String c vb).
  change (truthy_string (Some (String c vb))) with true.
  cbv beta iota delta [mbind option_bind].
  generalize (parseFloat B <$> JsString.split_spaces (String c vb)).
  intros [|x [|y [|w [|h [|z parts]]]]]; cbn; try done.
  by destruct (Number.isFinite x && _).
Qed.

(** *** Cutting at white space *)

Lemma append_cons (x : ascii) (a b : string) :
  String.append (String x a) b = String x (String.append a b).
Proof. reflexivity. Qed.

Lemma append_empty_r (a : string) : String.append a EmptyString = a.
Proof. induction a as [|c a IH]; [done|]. by rewrite append_cons, IH. Qed.

Lemma split_spaces_from_not_nil (in_run : bool) (s : string) :
  JsString.split_spaces_from in_run s ≠ [].
Proof.
  revert in_run. induction s as [|c s IH]; intros in_run; cbn; [done|].
  destruct (JsString.is_space c).
  - destruct in_run; [apply IH|done].
  - by destruct (JsString.split_spaces_from false s).
Qed.

Lemma split_spaces_no_space (s : string) (in_run : bool) :
  has_space s = false → JsString.split_spaces_from in_run s = [s].
Proof.
  revert in_run. induction s as [|c s IH]; intros in_run; [done|]. cbn.
  intros [-> Hs]%orb_false_iff. by rewrite (IH false Hs).
Qed.

(** A piece is carried over to the head of what follows it. *)
Lemma split_spaces_piece (t rest : string) :
  has_space t = false →
  JsString.split_spaces_from false (String.append t rest)
  = match JsString.split_spaces_from false rest with
    | hd :: tl => String.append t hd :: tl
    | [] => [t]
    end.
Proof.
  induction t as [|c t IH]; intros Ht.
  - change (String.append EmptyString rest) with rest.
    destruct (JsString.split_spaces_from false rest) as [|hd tl] eqn:E;
      [by apply split_spaces_from_not_nil in E|done].
  - cbn in Ht. apply orb_false_iff in Ht as [Hc Ht].
    rewrite append_cons. cbn [JsString.split_spaces_from]. rewrite Hc.
    rewrite (IH Ht).
    destruct (JsString.split_spaces_from false rest) as [|hd tl] eqn:E;
      [by apply split_spaces_from_not_nil in E|done].
Qed.

(** Inside a run, more white space changes nothing. *)
Lemma split_spaces_in_run (b rest : string) :
  all_space b = true →
  JsString.split_spaces_from true (String.append b rest)
  = JsString.split_spaces_from true rest.
Proof.
  induction b as [|c b IH]; intros Hb; [done|].
  cbn in Hb. apply andb_true_iff in Hb as [Hc Hb].
  rewrite append_cons. cbn [JsString.split_spaces_from]. rewrite Hc.
  by apply IH.
Qed.

(** A run is one cut. *)
Lemma split_spaces_blank (b rest : string) :
  blank b = true →
  JsString.split_spaces_from false (String.append b rest)
  = EmptyString :: JsString.split_spaces_from true rest.
Proof.
  destruct b as [|c b]; [done|]. cbn [blank all_space].
  intros [Hc Hb]%andb_true_iff.
  rewrite append_cons. cbn [JsString.split_spaces_from]. rewrite Hc.
  by rewrite split_spaces_in_run.
Qed.

Lemma split_spaces_after_run (rest : string) :
  starts_with_space rest = false →
  JsString.split_spaces_from true rest = JsString.split_spaces_from false rest.
Proof. destruct rest as [|c rest]; cbn; [done|]. by intros ->. Qed.

(** [split(/\s+/)] gives the pieces. *)
Lemma pieces_split_spaces (s : string) (l : list string) :
  pieces s l → JsString.split_spaces s = l.
Proof.
  unfold JsString.split_spaces.
  induction 1 as [t Ht|t b rest l Ht Hb Hrest _ IH].
  - by apply split_spaces_no_space.
  - rewrite (split_spaces_piece _ _ Ht), (split_spaces_blank _ _ Hb).
    by rewrite (split_spaces_after_run _ Hrest), IH, append_empty_r.
Qed.

(** The white space a string starts with, and what follows it. *)
Lemma leading_run (s : string) :
  ∃ b rest : string,
    s = String.append b rest
    ∧ all_space b = true
    ∧ starts_with_space rest = false
    ∧ (String.length rest ≤ String.length s)%nat.
Proof.
  induction s as [|c s (b & rest & E & Hb & Hrest & Hlen)].
  - by exists EmptyString, EmptyString.
  - destruct (JsString.is_space c) eqn:Hc.
    + exists (String c b), rest. rewrite append_cons, <- E. cbn.
      rewrite Hc. split_and!; try done. lia.
    + exists EmptyString, (String c s). cbn. by rewrite Hc.
Qed.

(** Every string has pieces, and [split(/\s+/)] finds them. *)
Lemma split_spaces_pieces (s : string) : pieces s (JsString.split_spaces s).
Proof.
  unfold JsString.split_spaces.
  remember (String.length s) as n eqn:Hn.
  assert (Hle : (String.length s ≤ n)%nat) by lia. clear Hn.
  revert s Hle. induction n as [|n IH]; intros s Hle.
  { destruct s; [|cbn in Hle; lia]. by apply pieces_last. }
  destruct s as [|c s]; [by apply pieces_last|].
  cbn in Hle. cbn [JsString.split_spaces_from].
  destruct (JsString.is_space c) eqn:Hc.
  - destruct (leading_run s) as (b & rest & -> & Hb & Hrest & Hlen).
    rewrite (split_spaces_in_run _ _ Hb), (split_spaces_after_run _ Hrest).
    apply (pieces_more EmptyString (String c b) rest); try done.
    + cbn. by rewrite Hc.
    + apply IH. lia.
  - assert (Hs : pieces s (JsString.split_spaces_from false s))
      by (apply IH; lia).
    remember (JsString.split_spaces_from false s) as l eqn:Hl. clear Hl.
    destruct Hs as [t Ht|t b rest l Ht Hb Hrest Hp].
    + apply pieces_last. cbn. by rewrite Hc.
    + rewrite <- append_cons. apply pieces_more; try done.
      cbn. by rewrite Hc.
Qed.

(** C2 (as amended): when the DOM parser throws, or hands back a document
    without an svg element, the size is 256 by 256. Otherwise, with a
    missing attribute read as the empty string: when [parseFloat] reads a
    finite number off the width attribute and off the height attribute,
    these two numbers are the size; else, when the viewBox attribute cut at
    its runs of white space has exactly four pieces and [parseFloat] reads
    a finite number off each, the numbers of the third and the fourth piece
    are the size; else the size is 256 by 256. [parseSvgSize] returns a
    size in every case: it has no failing outcome. *)
Theorem parseSvgSize_precedence (B : Browser) (svgText : string) :
  ((∃ e : exn, parseFromString B svgText "image/svg+xml" = Throw e)
   ∨ (∃ doc : Document,
        parseFromString B svgText "image/svg+xml" = Ok doc
        ∧ querySelector doc "svg" = None) →
   parseSvgSize B svgText = mkSize (Number.of_Z 256) (Number.of_Z 256))
  ∧ ∀ (doc : Document) (svg : Element),
      parseFromString B svgText "image/svg+xml" = Ok doc →
      querySelector doc "svg" = Some svg →
      (Number.isFinite
         (parseFloat B (JsString.or_empty (getAttribute svg "width"))) = true →
       Number.isFinite
         (parseFloat B (JsString.or_empty (getAttribute svg "height"))) = true →
       parseSvgSize B svgText
       = mkSize (parseFloat B (JsString.or_empty (getAttribute svg "width")))
           (parseFloat B (JsString.or_empty (getAttribute svg "height"))))
      ∧ (Number.isFinite
           (parseFloat B (JsString.or_empty (getAttribute svg "width")))
         && Number.isFinite
              (parseFloat B (JsString.or_empty (getAttribute svg "height")))
         = false →
         (∀ x y wd ht : string,
            pieces (JsString.or_empty (getAttribute svg "viewBox"))
              [x; y; wd; ht] →
            Forall (λ piece, Number.isFinite (parseFloat B piece) = true)
              [x; y; wd; ht] →
            parseSvgSize B svgText
            = mkSize (parseFloat B wd) (parseFloat B ht))
         ∧ ((∀ x y wd ht : string,
               pieces (JsString.or_empty (getAttribute svg "viewBox"))
                 [x; y; wd; ht] →
               ¬ Forall (λ piece, Number.isFinite (parseFloat B piece) = true)
                   [x; y; wd; ht]) →
            parseSvgSize B svgText
            = mkSize (Number.of_Z 256) (Number.of_Z 256))).
Proof.
  rewrite parseSvgSize_resolved. unfold root_svg. split.
  { intros [[e ->]|(doc & -> & ->)]; done. }
  intros doc svg -> ->. unfold declared_size, viewBox_size.
  change (default EmptyString) with JsString.or_empty.
  split.
  { by intros -> ->. }
  intros ->. cbv beta iota delta [mbind option_bind]. split.
  - intros x y wd ht Hpieces Hfinite.
    apply pieces_split_spaces in Hpieces.
    destruct (getAttribute svg "viewBox") as [vb|]; [|discriminate Hpieces].
    change (JsString.or_empty (Some vb)) with vb in Hpieces. rewrite Hpieces.
    cbn [fmap list_fmap forallb].
    repeat (apply Forall_cons in Hfinite as [-> Hfinite]). done.
  - intros Hnone.
    destruct (getAttribute svg "viewBox") as [vb|]; [|done].
    change (JsString.or_empty (Some vb)) with vb in Hnone.
    pose proof (split_spaces_pieces vb) as Hpieces.
    destruct (JsString.split_spaces vb) as [|x [|y [|wd [|ht [|z l]]]]];
      try done.
    cbn [fmap list_fmap].
    destruct (forallb Number.isFinite _) eqn:Hall; [|done].
    exfalso. apply (Hnone x y wd ht Hpieces).
    cbn [forallb] in Hall. rewrite !andb_true_iff in Hall.
    destruct Hall as (? & ? & ? & ? & _).
    by repeat constructor.
Qed.

(** The cases of the specification's test list: a declared size of 48 by
    48, the view box [0 0 64 64] cut into its four pieces, and markup the
    parser finds no svg element in. *)
Lemma parseSvgSize_precedence_witness :
  parseSvgSize Reference.browser Reference.svg_48
  = mkSize (Number.of_Z 48) (Number.of_Z 48)
  ∧ parseSvgSize Reference.browser Reference.svg_viewBox_64
    = mkSize (Number.of_Z 64) (Number.of_Z 64)
  ∧ parseSvgSize Reference.browser Reference.svg_broken
    = mkSize (Number.of_Z 256) (Number.of_Z 256).
Proof.
  split_and!.
  - refine (proj1 (proj2 (parseSvgSize_precedence Reference.browser
                            Reference.svg_48)
                     (Reference.svg_document
                        [("width", "48"); ("height", "48")]%string)
                     (Reference.element
                        [("width", "48"); ("height", "48")]%string)
                     eq_refl eq_refl)
              eq_refl eq_refl).
  - refine (proj1 (proj2 (proj2 (parseSvgSize_precedence Reference.browser
                                   Reference.svg_viewBox_64)
                            (Reference.svg_document
                               [("viewBox", "0 0 64 64")]%string)
                            (Reference.element
                               [("viewBox", "0 0 64 64")]%string)
                            eq_refl eq_refl)
                     eq_refl)
              "0" "0" "64" "64"%string _ _).
    + apply (pieces_more "0" " " "0 64 64"); try reflexivity.
      apply (pieces_more "0" " " "64 64"); try reflexivity.
      apply (pieces_more "64" " " "64"); try reflexivity.
      by apply pieces_last.
    + by repeat constructor.
  - apply (proj1 (parseSvgSize_precedence Reference.browser
                    Reference.svg_broken)).
    right. by exists Reference.parsererror_document.
Defined.

(** C2 (counterexample): a width and a height of [100%] are no numbers,
    yet with the view box [0 0 24 24] beside them the size is 100 by 100,
    not 24 by 24; and the view box [0,0,64,64] has four numeric components,
    yet the size is 256 by 256, not 64 by 64. *)
Lemma svg_size_against_the_claim :
  parseSvgSize
    (browser_with_document
       (Reference.svg_document
          [("width", "100%"); ("height", "100%");
           ("viewBox", "0 0 24 24")]%string))
    "<svg width='100%' height='100%' viewBox='0 0 24 24'/>"
  = mkSize (Number.of_Z 100) (Number.of_Z 100)
  ∧ parseSvgSize
      (browser_with_document
         (Reference.svg_document [("viewBox", "0,0,64,64")]%string))
      "<svg viewBox='0,0,64,64'/>"
    = mkSize (Number.of_Z 256) (Number.of_Z 256).
Proof. split; reflexivity. Qed.

(** The three cases of the specification's test list, and broken markup,
    on the reference browser. *)
Example svg_declared_48 :
  parseSvgSize Reference.browser Reference.svg_48
  = mkSize (Number.of_Z 48) (Number.of_Z 48).
Proof. reflexivity. Qed.

Example svg_viewBox_64 :
  parseSvgSize Reference.browser Reference.svg_viewBox_64
  = mkSize (Number.of_Z 64) (Number.of_Z 64).
Proof. reflexivity. Qed.

Example svg_neither_256 :
  parseSvgSize Reference.browser Reference.svg_bare
  = mkSize (Number.of_Z 256) (Number.of_Z 256).
Proof. reflexivity. Qed.

Example svg_unparseable_256 :
  parseSvgSize Reference.browser Reference.svg_broken
  = mkSize (Number.of_Z 256) (Number.of_Z 256).
Proof. reflexivity. Qed.

(** Both numbers of a resolved SVG size are finite. *)
Lemma parseSvgSize_finite (B : Browser) (svgText : string) :
  Number.isFinite (width (parseSvgSize B svgText)) = true
  ∧ Number.isFinite (height (parseSvgSize B svgText)) = true.
Proof.
  rewrite parseSvgSize_resolved.
  destruct (root_svg B svgText) as [svg|]; [|done].
  unfold declared_size, viewBox_size.
  destruct (Number.isFinite _ && Number.isFinite _) eqn:Hwh.
  { by apply andb_true_iff in Hwh. }
  destruct (getAttribute svg "viewBox") as [vb|]; cbn; [|done].
  destruct (parseFloat B <$> JsString.split_spaces vb)
    as [|x [|y [|w [|h [|z parts]]]]]; cbn; try done.
  destruct (Number.isFinite x && _) eqn:Hall; [|done].
  rewrite !andb_true_iff in Hall. tauto.
Qed.

(** ** Decoding *)





Lemma isNaN_finite (a : number) :
  Number.isFinite a = true → Number.isNaN a = false.
Proof. by destruct a. Qed.

(** [loadImageFromFile] resolves to the decoded source image or rejects
    with its exception; of the page state it changes the object URLs
    only. *)
Lemma loadImageFromFile_run (B : Browser) (file : File.t) (w : World) :
  ∃ (urls : gmap nat Blob) (n url : nat),
    loadImageFromFile B file w =
    (match decoded B file with
     | Ok (image, wd, ht) => Ok (Loaded.mk image wd ht url)
     | Throw e => Throw e
     end,
     with_object_urls urls n w).
Proof.
  unfold loadImageFromFile, decoded, source_blob.
  fold (is_svg_file file).
  unfold load_image, createObjectURL, lift, get, throw,
    mbind, M_bind, mret, M_ret, outcome_bind, outcome_ret.
  destruct (is_svg_file file).
  - destruct (file_text B file) as [svgText|e]; cbn -[insert lookup].
    + rewrite lookup_insert_eq. cbn -[insert].
      destruct (image_decode B _) as [[nw nh]|]; cbn -[insert];
        [by eexists _, _, _|by eexists _, _, 0%nat].
    + by eexists _, _, 0%nat.
  - cbn -[insert lookup]. rewrite lookup_insert_eq. cbn -[insert].
    destruct (image_decode B _) as [[nw nh]|]; cbn -[insert];
      [by eexists _, _, _|by eexists _, _, 0%nat].
Qed.


(** ** Running the page operations *)

Lemma updateItem_run (name : string) (p : ConversionItem.patch) (w : World) :
  updateItem name p w = (Ok tt, with_items (patched name p (items w)) w).
Proof. reflexivity. Qed.

Lemma downloadBlob_run (blob : Blob) (filename : string) (w : World) :
  ∃ (urls : gmap nat Blob) (n : nat),
    downloadBlob blob filename w =
    (Ok tt,
     with_object_urls urls n
       (with_downloaded (downloaded w ++ [(filename, blob)]) w)).
Proof.
  unfold downloadBlob, createObjectURL, link_click, revokeObjectURL, modify,
    mbind, M_bind.
  cbn -[insert lookup delete]. rewrite lookup_insert_eq.
  by eexists _, _.
Qed.

Lemma bind_run {A C : Type} (m : M A) (f : A → M C) (w : World) :
  (m ≫= f) w =
  match m w with
  | (Ok a, w') => f a w'
  | (Throw e, w') => (Throw e, w')
  end.
Proof. reflexivity. Qed.

(** One pass of the loop never throws: it settles the item of its file
    from the outcome of the pipeline, and delivers or archives the
    artifact. *)
Lemma convertFile_run (B : Browser) (mode : Mode) (isSingle : bool)
    (quality : number) (iconSize : Z) (file : File.t) (w : World) :
  ∃ (urls : gmap nat Blob) (n : nat) (r : option nat),
    convertFile B mode isSingle quality iconSize file w =
    (Ok tt,
     after_convertFile isSingle
       (File.name file, artifact B mode quality iconSize file) urls n r w).
Proof.
  destruct w as [its fs b q sz urls0 n0 dl z rv h].
  unfold convertFile. run_world.
  match goal with
  | |- context [loadImageFromFile B file ?W] =>
      destruct (loadImageFromFile_run B file W) as (urls & n & url & Hload)
  end.
  rewrite Hload. clear Hload.
  unfold artifact.
  destruct (decoded B file) as [[[image wd] ht]|e].
  2:{ destruct isSingle; close_pass. }
  run_world.
  destruct (getContext2d B file).
  2:{ destruct isSingle; close_pass. }
  destruct mode.
  - change (draw _ (draw _ (set_height ht (set_width wd createElement_canvas))))
      with (painted image wd ht).
    destruct (canvas_toBlob B (painted image wd ht) "image/webp" (Some quality))
      as [webpBlob|].
    2:{ destruct isSingle; close_pass. }
    destruct isSingle.
    + match goal with
      | |- context [downloadBlob ?b ?f ?W] =>
          destruct (downloadBlob_run b f W) as (urls' & n' & ->)
      end.
      close_pass.
    + close_pass.
  - change (draw _ (draw _ (set_height _ (set_width _ createElement_canvas))))
      with (painted image (Number.of_Z iconSize) (Number.of_Z iconSize)).
    destruct (canvas_toBlob B _ "image/png" None) as [pngBlob|].
    2:{ destruct isSingle; close_pass. }
    rewrite buildIcoBlob_layout.
    destruct isSingle.
    + match goal with
      | |- context [downloadBlob ?b ?f ?W] =>
          destruct (downloadBlob_run b f W) as (urls' & n' & ->)
      end.
      close_pass.
    + close_pass.
Qed.

Lemma after_loop_cons (isSingle : bool) (p : pass) (ps : list pass)
    (urls urls' : gmap nat Blob) (n n' : nat) (r r' : option nat)
    (w : World) :
  after_loop isSingle ps urls' n' r' (after_convertFile isSingle p urls n r w)
  = after_loop isSingle (p :: ps) urls' n' r' w.
Proof.
  unfold after_loop, after_convertFile. cbn.
  destruct isSingle; f_equal; by rewrite <- ?app_assoc.
Qed.

(** The loop never throws; it makes the passes in order. *)
Lemma for_of_convertFile_run (B : Browser) (mode : Mode) (isSingle : bool)
    (quality : number) (iconSize : Z) (batch : list File.t) (w : World) :
  ∃ (urls : gmap nat Blob) (n : nat) (r : option nat),
    for_of batch (convertFile B mode isSingle quality iconSize) w =
    (Ok tt,
     after_loop isSingle (passes B mode quality iconSize batch) urls n r w).
Proof.
  revert w. induction batch as [|file batch IH]; intros w.
  - exists (object_urls w), (next_url w), (revoke w).
    destruct w. unfold after_loop. cbn.
    destruct isSingle; by rewrite !app_nil_r.
  - cbn [for_of]. rewrite bind_run.
    destruct (convertFile_run B mode isSingle quality iconSize file w)
      as (urls & n & r & ->).
    destruct (IH (after_convertFile isSingle
                    (File.name file, artifact B mode quality iconSize file)
                    urls n r w)) as (urls' & n' & r' & ->).
    exists urls', n', r'. by rewrite after_loop_cons.
Qed.

(** [convertAll] on a non-empty batch, started while not busy. *)
Lemma convertAll_of_run (B : Browser) (mode : Mode) (batch : list File.t)
    (quality : number) (iconSize : Z) (w : World) :
  batch ≠ [] →
  ∃ (urls : gmap nat Blob) (n : nat) (r : option nat),
    convertAll_of B batch false quality iconSize mode w =
    finished B mode batch quality iconSize urls n r w.
Proof.
  intros Hne. unfold convertAll_of, finished.
  assert ((length batch =? 0)%nat = false) as ->.
  { destruct batch; [done|]. reflexivity. }
  cbn [orb]. destruct w as [its fs b q sz urls0 n0 dl z rv h]. run_world.
  match goal with
  | |- context [for_of batch ?body ?W] =>
      destruct (for_of_convertFile_run B mode (length batch =? 1)%nat
                  quality iconSize batch W) as (urls & n & r & ->)
  end.
  destruct (1 <? length batch)%nat eqn:Hmany.
  - assert ((length batch =? 1)%nat = false) as ->.
    { apply Nat.eqb_neq. apply Nat.ltb_lt in Hmany. lia. }
    unfold after_loop. run_world.
    destruct (generateAsync B _) as [zipBlob|e].
    + match goal with
      | |- context [downloadBlob ?b ?f ?W] =>
          destruct (downloadBlob_run b f W) as (urls' & n' & ->)
      end.
      run_world. by eexists _, _, _.
    + run_world. by eexists _, _, _.
  - unfold after_loop. run_world.
    assert ((length batch =? 1)%nat = true) as ->.
    { apply Nat.eqb_eq. apply Nat.ltb_ge in Hmany.
      destruct batch; [done|]. cbn in *. lia. }
    by eexists _, _, _.
Qed.

(** ** The item list across the passes *)

Lemma patched_absent (n : string) (p : ConversionItem.patch)
    (l : list ConversionItem.t) :
  n ∉ ConversionItem.name <$> l → patched n p l = l.
Proof.
  unfold patched. induction l as [|x l IH]; cbn; [done|].
  rewrite not_elem_of_cons. intros [Hx Hl]. rewrite IH by done.
  destruct (String.eqb_spec (ConversionItem.name x) n); congruence.
Qed.

Lemma patched_middle (n : string) (p : ConversionItem.patch)
    (pre post : list ConversionItem.t) (x : ConversionItem.t) :
  ConversionItem.name x = n →
  n ∉ ConversionItem.name <$> pre → n ∉ ConversionItem.name <$> post →
  patched n p (pre ++ x :: post) = pre ++ ConversionItem.spread x p :: post.
Proof.
  intros Hx Hpre Hpost.
  pose proof (patched_absent n p pre Hpre) as E1.
  pose proof (patched_absent n p post Hpost) as E2.
  unfold patched in *. rewrite fmap_app, fmap_cons, E1, E2.
  by rewrite Hx, String.eqb_refl.
Qed.

(** With the name of the pass at one place only, the pass changes that
    place only: first to Working with no detail, then to its settled
    item. *)
Lemma after_pass_middle (p : pass) (pre post : list ConversionItem.t)
    (x : ConversionItem.t) :
  ConversionItem.name x = p.1 →
  p.1 ∉ ConversionItem.name <$> pre → p.1 ∉ ConversionItem.name <$> post →
  patched p.1 working_patch (pre ++ x :: post)
  = pre ++ ConversionItem.mk p.1 working None :: post
  ∧ after_pass (pre ++ x :: post) p = pre ++ settled p :: post.
Proof.
  intros Hx Hpre Hpost. unfold after_pass.
  rewrite (patched_middle p.1 working_patch pre post x) by done.
  split.
  - destruct x as [n st d]. cbn in *. by subst.
  - rewrite patched_middle by (done || by destruct x).
    destruct x as [n st d]. cbn in Hx. subst n.
    unfold settled. by destruct p.2.
Qed.

Lemma foldl_after_pass (ps : list pass) :
  ∀ pre l : list ConversionItem.t,
    ConversionItem.name <$> l = ps.*1 →
    NoDup ps.*1 →
    (∀ n, n ∈ ConversionItem.name <$> pre → n ∉ ps.*1) →
    foldl after_pass (pre ++ l) ps = pre ++ (settled <$> ps).
Proof.
  induction ps as [|p ps IH]; intros pre l Hnames Hnodup Hpre.
  - by destruct l.
  - destruct l as [|x l]; [done|]. cbn in Hnames.
    injection Hnames as Hx Hl. apply NoDup_cons in Hnodup as [Hp Hnodup].
    cbn [foldl].
    destruct (after_pass_middle p pre l x) as [_ ->]; [done| |by rewrite Hl|].
    { intros Hin. apply (Hpre _ Hin). by left. }
    rewrite (cons_middle (settled p)), app_assoc.
    rewrite (IH (pre ++ [settled p]) l); [|done|done|].
    { by rewrite <- app_assoc. }
    intros n. rewrite fmap_app, elem_of_app. intros [Hin|Hin].
    + intros Hn. apply (Hpre _ Hin). by right.
    + apply list_elem_of_singleton in Hin. subst n.
      replace (ConversionItem.name (settled p)) with p.1; [done|].
      unfold settled. by destruct p.2.
Qed.

(** ** Status changes across the passes *)

Lemma item_step_ok_refl (x : ConversionItem.t) : item_step_ok x x = true.
Proof.
  unfold item_step_ok. rewrite String.eqb_refl. by rewrite bool_decide_eq_true_2.
Qed.

Lemma step_ok_refl (l : list ConversionItem.t) : step_ok l l = true.
Proof. induction l as [|x l IH]; cbn; [done|]. by rewrite item_step_ok_refl. Qed.

Lemma step_ok_middle (pre post : list ConversionItem.t)
    (x y : ConversionItem.t) :
  item_step_ok x y = true →
  step_ok (pre ++ x :: post) (pre ++ y :: post) = true.
Proof.
  intros Hxy. induction pre as [|z pre IH]; cbn.
  - by rewrite Hxy, step_ok_refl.
  - by rewrite item_step_ok_refl, IH.
Qed.

Lemma monotonic_cons (a b : list ConversionItem.t)
    (rest : list (list ConversionItem.t)) :
  monotonic (a :: b :: rest) = step_ok a b && monotonic (b :: rest).
Proof. reflexivity. Qed.

(** From Ready items with pairwise distinct names, every render of the
    loop differs from the one before by one legal transition. *)
Lemma snapshots_monotonic (ps : list pass) :
  ∀ pre : list ConversionItem.t,
    NoDup ps.*1 →
    (∀ n, n ∈ ConversionItem.name <$> pre → n ∉ ps.*1) →
    monotonic ((pre ++ (fresh <$> ps.*1))
               :: snapshots (pre ++ (fresh <$> ps.*1)) ps) = true.
Proof.
  induction ps as [|p ps IH]; intros pre Hnodup Hpre; [done|].
  apply NoDup_cons in Hnodup as [Hp Hnodup].
  cbn [fmap list_fmap snapshots].
  change (list_fmap _ _ fst ps) with (ps.*1).
  change (list_fmap _ _ fresh ps.*1) with (fresh <$> ps.*1).
  assert (Hpost : p.1 ∉ ConversionItem.name <$> (fresh <$> ps.*1)).
  { rewrite <- list_fmap_compose.
    replace (ConversionItem.name ∘ fresh <$> ps.*1) with ps.*1; [done|].
    clear. induction ps.*1 as [|n l IH]; cbn; by f_equal. }
  assert (Hpre' : p.1 ∉ ConversionItem.name <$> pre).
  { intros Hin. apply (Hpre _ Hin). by left. }
  destruct (after_pass_middle p pre (fresh <$> ps.*1) (fresh p.1))
    as [-> ->]; [done..|].
  rewrite !monotonic_cons.
  rewrite !step_ok_middle; cbn [andb].
  - rewrite (cons_middle (settled p)), app_assoc. apply IH; [done|].
    intros n. rewrite fmap_app, elem_of_app. intros [Hin|Hin].
    + intros Hn. apply (Hpre _ Hin). by right.
    + apply list_elem_of_singleton in Hin. subst n.
      replace (ConversionItem.name (settled p)) with p.1; [done|].
      unfold settled. by destruct p.2.
  - unfold item_step_ok, settled. destruct p.2; cbn; by rewrite String.eqb_refl.
  - unfold item_step_ok. cbn. by rewrite String.eqb_refl.
Qed.

Lemma settled_final (ps : list pass) :
  Forall (λ item, ConversionItem.status item = done
                  ∨ ConversionItem.status item = error) (settled <$> ps).
Proof.
  apply Forall_fmap, Forall_forall. intros p _. unfold settled. cbn.
  destruct p.2; cbn; tauto.
Qed.

Lemma passes_names (B : Browser) (mode : Mode) (q : number) (size : Z)
    (batch : list File.t) :
  (passes B mode q size batch).*1 = File.name <$> batch.
Proof. unfold passes. rewrite <- list_fmap_compose. done. Qed.

(** ** The archive across the passes *)

Lemma artifact_name (B : Browser) (mode : Mode) (q : number) (size : Z)
    (file : File.t) (n : string) (blob : Blob) :
  artifact B mode q size file = Ok (n, blob) → n = output_name mode file.
Proof.
  unfold artifact. destruct (decoded B file) as [[[image wd] ht]|e]; [|done].
  cbv beta iota delta [mbind outcome_bind mret outcome_ret].
  destruct (getContext2d B file); [|done].
  destruct mode.
  - destruct (canvas_toBlob B _ _ _); [|done]. by intros [= <- _].
  - destruct (canvas_toBlob B _ _ _); [|done].
    rewrite buildIcoBlob_layout. by intros [= <- _].
Qed.

Lemma elem_of_archive_names (ps : list pass) (n : string) :
  n ∈ archive_names ps ↔ ∃ (p : pass) (blob : Blob), p ∈ ps ∧ p.2 = Ok (n, blob).
Proof.
  unfold archive_names. rewrite list_elem_of_omap. split.
  - intros (p & Hp & Hn). destruct p.2 as [[n' blob]|] eqn:E; [|done].
    injection Hn as <-. by exists p, blob.
  - intros (p & blob & Hp & E). exists p. by rewrite E.
Qed.

Lemma foldl_archived_dom (ps : list pass) (z : gmap string Blob) (n : string) :
  is_Some (foldl archived z ps !! n) ↔ is_Some (z !! n) ∨ n ∈ archive_names ps.
Proof.
  revert z. induction ps as [|p ps IH]; intros z.
  - cbn. rewrite elem_of_nil. tauto.
  - cbn [foldl]. rewrite IH. unfold archive_names, archived. cbn.
    destruct p.2 as [[n' blob]|]; cbn.
    + rewrite lookup_insert_is_Some, elem_of_cons.
      destruct (decide (n' = n)) as [->|Hne]; [tauto|].
      split; [tauto|]. intros [Hz|[->|Hin]]; tauto.
    + tauto.
Qed.

Lemma archive_names_snoc (ps : list pass) (p : pass) :
  archive_names (ps ++ [p])
  = archive_names ps
    ++ match p.2 with Ok a => [a.1] | Throw _ => [] end.
Proof. unfold archive_names. rewrite omap_app. cbn. by destruct p.2. Qed.

(** When the passes archive under pairwise distinct names, the archive
    holds exactly one entry per successful pass. *)
Lemma foldl_archived_lookup (ps : list pass) (n : string) (blob : Blob) :
  NoDup (archive_names ps) →
  foldl archived ∅ ps !! n = Some blob ↔ ∃ p : pass, p ∈ ps ∧ p.2 = Ok (n, blob).
Proof.
  induction ps as [|p ps IH] using rev_ind; intros Hnodup.
  - cbn. rewrite lookup_empty. split; [done|]. intros (p & Hp & _).
    by apply elem_of_nil in Hp.
  - rewrite archive_names_snoc in Hnodup. rewrite foldl_snoc.
    apply NoDup_app in Hnodup as (Hps & Hfresh & _).
    specialize (IH Hps). unfold archived.
    setoid_rewrite elem_of_app. setoid_rewrite list_elem_of_singleton.
    destruct p.2 as [[n' blob']|e] eqn:E.
    + rewrite lookup_insert_Some, IH. split.
      * intros [[-> ->]|[Hne (p0 & Hp0 & E0)]]; [by exists p; auto|].
        exists p0. auto.
      * intros (p0 & [Hp0| ->] & E0).
        -- right. split; [|by exists p0].
           intros ->. apply (Hfresh n); [|by left].
           apply elem_of_archive_names. by exists p0, blob.
        -- left. rewrite E in E0. by injection E0.
    + rewrite IH. split.
      * intros (p0 & Hp0 & E0). exists p0. auto.
      * intros (p0 & [Hp0| ->] & E0); [by exists p0|congruence].
Qed.

Lemma foldl_archived_size (ps : list pass) :
  NoDup (archive_names ps) →
  size (foldl archived ∅ ps) = length (archive_names ps).
Proof.
  induction ps as [|p ps IH] using rev_ind; intros Hnodup.
  - cbn. apply map_size_empty.
  - rewrite archive_names_snoc in *. rewrite foldl_snoc, length_app.
    apply NoDup_app in Hnodup as (Hps & Hfresh & _).
    unfold archived at 1. destruct p.2 as [[n' blob']|e]; cbn [length fst snd].
    + rewrite map_size_insert_None, (IH Hps); [lia|].
      apply eq_None_not_Some. rewrite foldl_archived_dom.
      intros [Hin|Hin]; [by rewrite lookup_empty in Hin; destruct Hin|].
      apply (Hfresh n' Hin). by left.
    + rewrite (IH Hps). lia.
Qed.

Lemma foldl_archived_all_failed (ps : list pass) (z : gmap string Blob) :
  Forall (λ p : pass, succeeded p.2 = false) ps → foldl archived z ps = z.
Proof.
  revert z. induction ps as [|p ps IH]; intros z Hall; [done|].
  apply Forall_cons in Hall as [Hp Hall]. cbn [foldl].
  rewrite (IH _ Hall). unfold archived. by destruct p.2.
Qed.

Lemma archive_names_passes (B : Browser) (mode : Mode) (q : number)
    (size : Z) (batch : list File.t) (n : string) :
  n ∈ archive_names (passes B mode q size batch) ↔
  ∃ file : File.t,
    file ∈ batch ∧ n = output_name mode file
    ∧ succeeded (artifact B mode q size file) = true.
Proof.
  rewrite elem_of_archive_names. unfold passes. split.
  - intros (p & blob & (file & -> & Hfile)%list_elem_of_fmap & E). cbn in E.
    exists file. split_and!; [done| |by rewrite E].
    by apply artifact_name in E.
  - intros (file & Hfile & -> & Hok).
    destruct (artifact B mode q size file) as [[n blob]|] eqn:E; [|done].
    exists (File.name file, artifact B mode q size file), blob.
    split; [by apply list_elem_of_fmap_2'  with file|].
    cbn. rewrite E. by rewrite (artifact_name _ _ _ _ _ _ _ E).
Qed.

Lemma archive_names_NoDup (B : Browser) (mode : Mode) (q : number)
    (size : Z) (batch : list File.t) :
  NoDup (output_name mode <$> batch) →
  NoDup (archive_names (passes B mode q size batch)).
Proof.
  induction batch as [|file batch IH]; [constructor|].
  rewrite fmap_cons, NoDup_cons. intros [Hfresh Hnodup].
  unfold passes, archive_names. cbn.
  destruct (artifact B mode q size file) as [[n blob]|] eqn:E; cbn.
  - apply NoDup_cons. split; [|by apply IH].
    apply artifact_name in E. subst n.
    intros (file' & Hin & Hname & _)%archive_names_passes.
    apply Hfresh. rewrite Hname. by apply list_elem_of_fmap_2.
  - by apply IH.
Qed.

Lemma archive_names_length (B : Browser) (mode : Mode) (q : number)
    (size : Z) (batch : list File.t) :
  length (archive_names (passes B mode q size batch))
  = length (List.filter (λ file, succeeded (artifact B mode q size file)) batch).
Proof.
  induction batch as [|file batch IH]; [done|].
  unfold passes, archive_names in *. cbn.
  destruct (artifact B mode q size file); cbn; by rewrite IH.
Qed.

(** ** A whole run *)

Lemma convertAll_run (B : Browser) (mode : Mode) (w : World) :
  busy w = false → files w ≠ [] →
  ∃ (urls : gmap nat Blob) (n : nat) (r : option nat),
    convertAll B mode w =
    finished B mode (files w) (quality w) (iconSize w) urls n r w.
Proof.
  intros Hbusy Hne. unfold convertAll. rewrite bind_run. unfold get.
  rewrite Hbusy. by apply convertAll_of_run.
Qed.

Section Finished.

Context (B : Browser) (mode : Mode) (batch : list File.t)
  (q : number) (size : Z)
  (urls : gmap nat Blob) (n : nat) (r : option nat) (w : World).

Lemma finished_items :
  items (finished B mode batch q size urls n r w).2
  = foldl after_pass (items w) (passes B mode q size batch).
Proof.
  unfold finished. destruct (1 <? length batch)%nat; [|done].
  by destruct (generateAsync B _).
Qed.

Lemma finished_history :
  history (finished B mode batch q size urls n r w).2
  = history w ++ snapshots (items w) (passes B mode q size batch).
Proof.
  unfold finished. destruct (1 <? length batch)%nat; [|done].
  by destruct (generateAsync B _).
Qed.

Lemma finished_zip :
  zip (finished B mode batch q size urls n r w).2
  = if (length batch =? 1)%nat then ∅
    else foldl archived ∅ (passes B mode q size batch).
Proof.
  unfold finished. destruct (1 <? length batch)%nat; [|done].
  by destruct (generateAsync B _).
Qed.

Lemma finished_downloaded :
  downloaded (finished B mode batch q size urls n r w).2
  = (downloaded w
     ++ (if (length batch =? 1)%nat
         then passes B mode q size batch ≫= (λ p, delivered p.2)
         else []))
    ++ (if (1 <? length batch)%nat
        then
          match generateAsync B
                  (zip (finished B mode batch q size urls n r w).2) with
          | Ok zipBlob => [(archive_name mode, zipBlob)]
          | Throw _ => []
          end
        else []).
Proof.
  rewrite finished_zip. unfold finished.
  destruct (1 <? length batch)%nat eqn:Hmany; [|by rewrite app_nil_r].
  assert ((length batch =? 1)%nat = false) as ->.
  { apply Nat.eqb_neq. apply Nat.ltb_lt in Hmany. lia. }
  destruct (generateAsync B _); cbn; by rewrite ?app_nil_r.
Qed.

Lemma finished_result :
  (finished B mode batch q size urls n r w).1
  = if (1 <? length batch)%nat
    then
      match generateAsync B
              (zip (finished B mode batch q size urls n r w).2) with
      | Ok _ => Ok tt
      | Throw e => Throw e
      end
    else Ok tt.
Proof.
  rewrite finished_zip. unfold finished.
  destruct (1 <? length batch)%nat eqn:Hmany; [|done].
  assert ((length batch =? 1)%nat = false) as ->.
  { apply Nat.eqb_neq. apply Nat.ltb_lt in Hmany. lia. }
  by destruct (generateAsync B _).
Qed.

End Finished.

(** ** Failure isolation *)

(** C3 (as amended): in a batch whose file names are pairwise distinct,
    every file ends as the item its own pipeline decides: Error with the
    message of the exception as detail when the pipeline fails, Done
    otherwise; the run goes through every file whatever the others did.
    When the output names are pairwise distinct as well, the archive of a
    multi-file batch holds exactly one entry per successful file. For
    three files of which only the second fails, the statuses end as Done,
    Error, Done, and the archive holds exactly the two entries of the
    first and the third when their output names differ. *)
Theorem batch_isolates_failures (B : Browser) (mode : Mode) (w : World) :
  busy w = false →
  files w ≠ [] →
  ConversionItem.name <$> items w = File.name <$> files w →
  NoDup (File.name <$> files w) →
  ∃ (r : outcome unit) (w' : World),
    convertAll B mode w = (r, w')
    ∧ items w'
      = (λ file,
           match artifact B mode (quality w) (iconSize w) file with
           | Ok _ => ConversionItem.mk (File.name file) done None
           | Throw e =>
               ConversionItem.mk (File.name file) error (Some (message_of e))
           end) <$> files w
    ∧ ((1 < length (files w))%nat →
       NoDup (output_name mode <$> files w) →
       (∀ (n : string) (blob : Blob),
          zip w' !! n = Some blob ↔
          ∃ file, file ∈ files w
                  ∧ artifact B mode (quality w) (iconSize w) file
                    = Ok (n, blob))
       ∧ size (zip w')
         = length
             (List.filter
                (λ file,
                   succeeded (artifact B mode (quality w) (iconSize w) file))
                (files w)))
    ∧ (∀ f1 f2 f3 : File.t,
         files w = [f1; f2; f3] →
         succeeded (artifact B mode (quality w) (iconSize w) f1) = true →
         succeeded (artifact B mode (quality w) (iconSize w) f2) = false →
         succeeded (artifact B mode (quality w) (iconSize w) f3) = true →
         ConversionItem.status <$> items w' = [done; error; done]
         ∧ (output_name mode f1 ≠ output_name mode f3 →
            size (zip w') = 2%nat
            ∧ ∀ n : string,
                is_Some (zip w' !! n) ↔
                n = output_name mode f1 ∨ n = output_name mode f3)).
Proof.
  intros Hbusy Hne Hnames Hnodup.
  destruct (convertAll_run B mode w Hbusy Hne) as (urls & n & r & Hrun).
  set (q := quality w) in *. set (size := iconSize w) in *.
  set (ps := passes B mode q size (files w)).
  assert (Hitems :
    items (finished B mode (files w) q size urls n r w).2 = settled <$> ps).
  { rewrite finished_items.
    rewrite <- (app_nil_l (items w)), <- (app_nil_l (settled <$> _)).
    apply foldl_after_pass; unfold ps.
    - by rewrite passes_names.
    - by rewrite passes_names.
    - intros x Hx. by apply elem_of_nil in Hx. }
  eexists _, _. split; [by rewrite Hrun; apply surjective_pairing|].
  split_and!.
  - rewrite Hitems. unfold ps, passes. rewrite <- list_fmap_compose.
    apply list_fmap_ext. intros _ file _. unfold settled. cbn.
    by destruct (artifact B mode q size file).
  - intros Hmany Hout. rewrite finished_zip.
    assert ((length (files w) =? 1)%nat = false) as -> by (apply Nat.eqb_neq; lia).
    pose proof (archive_names_NoDup B mode q size _ Hout) as Hnd.
    split.
    + intros name blob. rewrite foldl_archived_lookup by done. unfold passes.
      split.
      * intros (p & (file & -> & Hfile)%list_elem_of_fmap & E). by exists file.
      * intros (file & Hfile & E).
        exists (File.name file, artifact B mode q size file).
        split; [by apply list_elem_of_fmap_2' with file|exact E].
    + rewrite foldl_archived_size by done. apply archive_names_length.
  - intros f1 f2 f3 Hfiles Hok1 Hfail2 Hok3. split.
    + rewrite Hitems. unfold ps, passes. rewrite Hfiles. unfold settled. cbn.
      destruct (artifact B mode q size f1); [|done].
      destruct (artifact B mode q size f2); [done|].
      by destruct (artifact B mode q size f3).
    + intros Hdiff. rewrite finished_zip. rewrite Hfiles. cbn [length Nat.eqb].
      assert (Hnames3 :
        archive_names (passes B mode q size [f1; f2; f3])
        = [output_name mode f1; output_name mode f3]).
      { unfold archive_names, passes. cbn.
        destruct (artifact B mode q size f1) as [[n1 b1]|] eqn:E1; [|done].
        destruct (artifact B mode q size f2); [done|].
        destruct (artifact B mode q size f3) as [[n3 b3]|] eqn:E3; [|done].
        cbn. by rewrite (artifact_name _ _ _ _ _ _ _ E1),
                        (artifact_name _ _ _ _ _ _ _ E3). }
      split.
      * rewrite foldl_archived_size; rewrite Hnames3; [done|].
        apply NoDup_cons. split; [by rewrite list_elem_of_singleton|].
        apply NoDup_singleton.
      * intros name. rewrite foldl_archived_dom, Hnames3, lookup_empty.
        rewrite elem_of_cons, list_elem_of_singleton.
        split; [intros [[? [=]]|?]; done|tauto].
Qed.

Lemma batch_isolates_failures_witness :
  ∃ (r : outcome unit) (w' : World),
    convertAll Reference.browser webp
      (Reference.dropped
         [Reference.a_png; Reference.corrupt_b_png; Reference.c_png])
    = (r, w')
    ∧ ConversionItem.status <$> items w' = [done; error; done]
    ∧ ConversionItem.detail <$> items w'
      = [None; Some "Image load failed"%string; None]
    ∧ size (zip w') = 2%nat.
Proof.
  destruct (batch_isolates_failures Reference.browser webp
              (Reference.dropped
                 [Reference.a_png; Reference.corrupt_b_png; Reference.c_png]))
    as (r & w' & Hrun & Hitems & _ & Hthree).
  - reflexivity.
  - discriminate.
  - reflexivity.
  - by apply (bool_decide_unpack _).
  - exists r, w'. split; [exact Hrun|].
    destruct (Hthree Reference.a_png Reference.corrupt_b_png Reference.c_png)
      as [Hstatus Hzip]; [reflexivity..|].
    split; [exact Hstatus|]. split; [by rewrite Hitems|].
    apply Hzip. discriminate.
Defined.

(** C3 (counterexample): three files of which only the second is corrupt.
    When the first and the third share a base name, the archive ends with
    one entry, the output of the third; when the first and the second
    share a name, the failure of the second marks the first as Error. *)
Lemma batch_isolation_needs_distinct_names :
  (ConversionItem.status
     <$> items (Reference.clicked webp
                  (Reference.dropped
                     [Reference.a_png; Reference.corrupt_b_png;
                      Reference.a_jpg]))
   = [done; error; done]
   ∧ size (zip (Reference.clicked webp
                  (Reference.dropped
                     [Reference.a_png; Reference.corrupt_b_png;
                      Reference.a_jpg]))) = 1%nat
   ∧ zip (Reference.clicked webp
            (Reference.dropped
               [Reference.a_png; Reference.corrupt_b_png; Reference.a_jpg]))
     !! "a.webp"%string
     = Some (mkBlob [255; 216; 255] "image/webp"))
  ∧ ConversionItem.status
      <$> items (Reference.clicked webp
                   (Reference.dropped
                      [Reference.a_png; Reference.corrupt_a_png;
                       Reference.c_png]))
    = [error; error; done].
Proof. by vm_compute. Qed.

(** ** Outputs and their names *)

Lemma pair_of_fst {A C : Type} (p : A * C) (a : A) : p.1 = a → p = (a, p.2).
Proof. intros <-. apply surjective_pairing. Qed.




(** C10: when every file of a multi-file batch fails, the run still hands
    the archive writer an archive with no entry and delivers what the
    writer returns; whatever the files did, the archive of a batch is
    requested exactly when the batch has more than one file. *)
Theorem archive_depends_on_item_count (B : Browser) (mode : Mode) (w : World) :
  busy w = false →
  files w ≠ [] →
  ∃ (r : outcome unit) (w' : World),
    convertAll B mode w = (r, w')
    ∧ downloaded w'
      = (downloaded w
         ++ (if (length (files w) =? 1)%nat
             then passes B mode (quality w) (iconSize w) (files w)
                  ≫= (λ p, delivered p.2)
             else []))
        ++ (if (1 <? length (files w))%nat
            then match generateAsync B (zip w') with
                 | Ok zipBlob => [(archive_name mode, zipBlob)]
                 | Throw _ => []
                 end
            else [])
    ∧ ((1 < length (files w))%nat →
       Forall
         (λ file,
            succeeded (artifact B mode (quality w) (iconSize w) file) = false)
         (files w) →
       zip w' = ∅
       ∧ size (zip w') = 0%nat
       ∧ match generateAsync B ∅ with
         | Ok zipBlob =>
             r = Ok tt
             ∧ downloaded w' = downloaded w ++ [(archive_name mode, zipBlob)]
         | Throw e => r = Throw e ∧ downloaded w' = downloaded w
         end).
Proof.
  intros Hbusy Hne.
  destruct (convertAll_run B mode w Hbusy Hne) as (urls & n & r & Hrun).
  eexists _, _. split; [by rewrite Hrun; apply surjective_pairing|].
  pose proof (finished_result B mode (files w) (quality w) (iconSize w)
                urls n r w) as Hres.
  pose proof (finished_zip B mode (files w) (quality w) (iconSize w)
                urls n r w) as Hzip.
  pose proof (finished_downloaded B mode (files w) (quality w) (iconSize w)
                urls n r w) as Hdl.
  split; [exact Hdl|].
  intros Hmany Hfailed.
  assert ((1 <? length (files w))%nat = true) as Hltb
    by (apply Nat.ltb_lt; lia).
  assert ((length (files w) =? 1)%nat = false) as Heqb
    by (apply Nat.eqb_neq; lia).
  rewrite Hltb in Hres, Hdl. rewrite Heqb in Hzip, Hdl.
  rewrite foldl_archived_all_failed in Hzip.
  2:{ unfold passes. by apply Forall_fmap. }
  rewrite Hzip in Hres, Hdl. rewrite app_nil_r in Hdl.
  split; [exact Hzip|]. split; [by rewrite Hzip|].
  rewrite Hres, Hdl. destruct (generateAsync B ∅); [done|by rewrite app_nil_r].
Qed.

Lemma archive_depends_on_item_count_witness :
  ∃ (r : outcome unit) (w' : World),
    convertAll Reference.browser webp
      (Reference.dropped [Reference.corrupt_b_png; Reference.corrupt_d_png])
    = (r, w')
    ∧ r = Ok tt
    ∧ zip w' = ∅
    ∧ downloaded w'
      = [("webp-conversions.zip"%string, mkBlob [0] "application/zip")].
Proof.
  destruct (archive_depends_on_item_count Reference.browser webp
              (Reference.dropped
                 [Reference.corrupt_b_png; Reference.corrupt_d_png]))
    as (r & w' & Hrun & _ & Hfailed); [reflexivity|discriminate|].
  exists r, w'. split; [exact Hrun|].
  destruct Hfailed as (Hzip & _ & Hres & Hdl).
  - by apply Nat.ltb_lt.
  - by repeat constructor.
  - done.
Defined.

(** ** Status transitions *)

Lemma handleFiles_fields (incoming : list File.t) (w : World) :
  files (handleFiles incoming w).2 = List.filter isAcceptedFile incoming
  ∧ items (handleFiles incoming w).2
    = fresh <$> (File.name <$> List.filter isAcceptedFile incoming)
  ∧ busy (handleFiles incoming w).2 = busy w
  ∧ history (handleFiles incoming w).2
    = history w
      ++ [fresh <$> (File.name <$> List.filter isAcceptedFile incoming)].
Proof. cbn. by rewrite <- list_fmap_compose. Qed.

(** C5 (as amended): in the first run after intake, over files with
    pairwise distinct names, every item list handed to React differs from
    the one before it by legal transitions only (Ready to Working, Working
    to Done, Working to Error; the other items unchanged): no item leaves
    Done or Error, none reaches them except from Working, and at the end
    every item is Done or Error. *)
Theorem first_run_transitions_monotonic
    (B : Browser) (mode : Mode) (incoming : list File.t) (w0 : World) :
  busy w0 = false →
  NoDup (File.name <$> List.filter isAcceptedFile incoming) →
  ∃ (r : outcome unit) (w2 : World) (renders : list (list ConversionItem.t)),
    convertAll B mode (handleFiles incoming w0).2 = (r, w2)
    ∧ history w2 = history (handleFiles incoming w0).2 ++ renders
    ∧ Forall (λ item, ConversionItem.status item = ready)
        (items (handleFiles incoming w0).2)
    ∧ monotonic (items (handleFiles incoming w0).2 :: renders) = true
    ∧ (List.filter isAcceptedFile incoming ≠ [] →
       Forall (λ item, ConversionItem.status item = done
                       ∨ ConversionItem.status item = error) (items w2)).
Proof.
  intros Hbusy Hnodup.
  destruct (handleFiles_fields incoming w0) as (Hfiles & Hitems & Hbusy1 & _).
  generalize dependent (handleFiles incoming w0).2. intros w1 Hfiles Hitems Hb.
  generalize dependent (List.filter isAcceptedFile incoming).
  intros batch Hnodup Hfiles Hitems.
  assert (Hready : Forall (λ item, ConversionItem.status item = ready)
                     (items w1)).
  { rewrite Hitems. by apply Forall_fmap, Forall_forall. }
  destruct (decide (batch = [])) as [->|Hne].
  - exists (Ok tt), w1, []. split_and!; try done.
    + unfold convertAll, convertAll_of. rewrite bind_run. unfold get.
      by rewrite Hfiles.
    + by rewrite app_nil_r.
  - destruct (convertAll_run B mode w1) as (urls & n & r & Hrun);
      [congruence..|].
    set (ps := passes B mode (quality w1) (iconSize w1) (files w1)).
    assert (Hps : ps.*1 = File.name <$> batch).
    { unfold ps. by rewrite passes_names, Hfiles. }
    eexists _, _, (snapshots (items w1) ps).
    split; [by rewrite Hrun; apply surjective_pairing|].
    split; [apply finished_history|]. split; [done|]. split.
    + rewrite Hitems, <- Hps.
      apply (snapshots_monotonic ps []); [by rewrite Hps|].
      intros x Hx. by apply elem_of_nil in Hx.
    + intros _. rewrite finished_items.
      rewrite <- (app_nil_l (items w1)).
      rewrite foldl_after_pass.
      * apply settled_final.
      * fold ps. rewrite Hitems, Hps, <- list_fmap_compose.
        clear. induction batch as [|f l IH]; cbn; by f_equal.
      * fold ps. by rewrite Hps.
      * intros x Hx. by apply elem_of_nil in Hx.
Qed.

Lemma first_run_transitions_monotonic_witness :
  ∃ (r : outcome unit) (w2 : World),
    convertAll Reference.browser webp
      (Reference.dropped
         [Reference.a_png; Reference.corrupt_b_png; Reference.c_png])
    = (r, w2)
    ∧ monotonic (history w2) = true
    ∧ Forall (λ item, ConversionItem.status item = done
                      ∨ ConversionItem.status item = error) (items w2).
Proof.
  destruct (first_run_transitions_monotonic Reference.browser webp
              [Reference.a_png; Reference.corrupt_b_png; Reference.c_png]
              initial)
    as (r & w2 & renders & Hrun & Hhistory & _ & Hmonotonic & Hfinal).
  - reflexivity.
  - by apply (bool_decide_unpack _).
  - exists r, w2. split; [exact Hrun|]. split.
    + rewrite Hhistory. exact Hmonotonic.
    + apply Hfinal. discriminate.
Defined.

(** C5 (counterexample): a second run over the same files moves an item
    from Done back to Working; so does, within one run, a later file with
    the name of an earlier one. *)
Lemma transitions_not_monotonic :
  (fmap (M := list) ConversionItem.status
     <$> history (Reference.clicked ico
                    (Reference.clicked webp
                       (Reference.dropped [Reference.a_png])))
   = [[ready]; [working]; [done]; [working]; [done]]
   ∧ monotonic
       (history (Reference.clicked ico
                   (Reference.clicked webp
                      (Reference.dropped [Reference.a_png])))) = false)
  ∧ (fmap (M := list) ConversionItem.status
       <$> history (Reference.clicked webp
                      (Reference.dropped
                         [Reference.a_png; Reference.corrupt_a_png]))
     = [[ready; ready]; [working; working]; [done; done];
        [working; working]; [error; error]]
     ∧ monotonic
         (history (Reference.clicked webp
                     (Reference.dropped
                        [Reference.a_png; Reference.corrupt_a_png])))
       = false).
Proof. by vm_compute. Qed.

(** ** The quality setting *)

Lemma passes_ico_quality (B : Browser) (q1 q2 : number) (size : Z)
    (batch : list File.t) :
  passes B ico q1 size batch = passes B ico q2 size batch.
Proof. reflexivity. Qed.

(** C8: in icon mode the quality setting has no effect. The pipeline of a
    file gives the same artifact, byte for byte, under any two quality
    values: the PNG export is asked for without a quality argument. The
    run as a whole, as the closure of a render, is the same computation
    under both; and two pages that differ in the quality setting only end
    with the same result, items, archive entries and downloads. *)
Theorem icon_output_ignores_quality
    (B : Browser) (q1 q2 : number) (w : World) :
  (∀ (size : Z) (file : File.t),
     artifact B ico q1 size file = artifact B ico q2 size file)
  ∧ (∀ (batch : list File.t) (is_busy : bool) (size : Z),
       convertAll_of B batch is_busy q1 size ico w
       = convertAll_of B batch is_busy q2 size ico w)
  ∧ (convertAll B ico (with_quality q1 w)).1
    = (convertAll B ico (with_quality q2 w)).1
  ∧ items (convertAll B ico (with_quality q1 w)).2
    = items (convertAll B ico (with_quality q2 w)).2
  ∧ zip (convertAll B ico (with_quality q1 w)).2
    = zip (convertAll B ico (with_quality q2 w)).2
  ∧ downloaded (convertAll B ico (with_quality q1 w)).2
    = downloaded (convertAll B ico (with_quality q2 w)).2.
Proof.
  split; [reflexivity|]. split; [reflexivity|].
  destruct (busy w) eqn:Hbusy.
  { unfold convertAll, convertAll_of. rewrite !bind_run. unfold get.
    change (busy (with_quality _ w)) with (busy w). rewrite Hbusy.
    by rewrite !orb_true_r. }
  destruct (decide (files w = [])) as [Hnil|Hne].
  { unfold convertAll, convertAll_of. rewrite !bind_run. unfold get.
    change (files (with_quality _ w)) with (files w). by rewrite Hnil. }
  destruct (convertAll_run B ico (with_quality q1 w) Hbusy Hne)
    as (urls1 & n1 & r1 & ->).
  destruct (convertAll_run B ico (with_quality q2 w) Hbusy Hne)
    as (urls2 & n2 & r2 & ->).
  change (files (with_quality _ w)) with (files w).
  change (iconSize (with_quality _ w)) with (iconSize w).
  change (quality (with_quality q1 w)) with q1.
  change (quality (with_quality q2 w)) with q2.
  rewrite !finished_result, !finished_items, !finished_zip,
    !finished_downloaded, !finished_zip.
  by rewrite (passes_ico_quality B q1 q2).
Qed.

(** In WebP mode the quality value does reach the encoder. *)
Example webp_encoder_receives_quality (B : Browser) (q : number)
    (file : File.t) (image : Image) (wd ht : number) :
  decoded B file = Ok (image, wd, ht) →
  getContext2d B file = true →
  canvas_toBlob B (painted image wd ht) "image/webp" (Some q) = None →
  artifact B webp q 256 file = Throw (JsError "Canvas export failed").
Proof.
  unfold artifact. intros -> -> E.
  cbv beta iota delta [mbind outcome_bind]. by rewrite E.
Qed.

(** ** Object URLs *)

(** On any browser: when the image of a file that is not SVG fails to
    load, the pass ends with the URL created for the file still
    registered. *)
Lemma failed_load_keeps_url (B : Browser) (mode : Mode) (isSingle : bool)
    (q : number) (size : Z) (file : File.t) (w : World) :
  is_svg_file file = false →
  image_decode B (mkBlob (File.content file) (File.type file)) = None →
  object_urls (convertFile B mode isSingle q size file w).2
  = <[next_url w := mkBlob (File.content file) (File.type file)]>
      (object_urls w).
Proof.
  intros Hsvg Hdecode. destruct w as [its fs b q0 sz urls0 n0 dl z rv h].
  unfold convertFile, loadImageFromFile. fold (is_svg_file file).
  rewrite Hsvg. unfold load_image, createObjectURL. run_world.
  rewrite lookup_insert_eq. cbn [mbind option_bind fmap option_fmap option_map].
  rewrite Hdecode. reflexivity.
Qed.

(** C6 (what the code does): a file whose image fails to load ends as
    Error with its object URL still registered; an SVG that converts ends
    as Done with the URL of the file itself still registered; only a file
    that is not SVG and loads has its URL revoked. *)
Theorem object_urls_left_registered :
  (ConversionItem.status
     <$> items (Reference.clicked webp
                  (Reference.dropped [Reference.corrupt_b_png]))
   = [error]
   ∧ map_to_list
       (object_urls (Reference.clicked webp
                       (Reference.dropped [Reference.corrupt_b_png])))
     = [(0%nat, mkBlob [] "image/png")])
  ∧ (ConversionItem.status
       <$> items (Reference.clicked webp
                    (Reference.dropped [Reference.fractional_svg]))
     = [done]
     ∧ dom (object_urls (Reference.clicked webp
                           (Reference.dropped [Reference.fractional_svg])))
       = {[0%nat]})
  ∧ (ConversionItem.status
       <$> items (Reference.clicked webp
                    (Reference.dropped [Reference.a_png]))
     = [done]
     ∧ object_urls (Reference.clicked webp
                      (Reference.dropped [Reference.a_png])) = ∅).
Proof. by vm_compute. Qed.

(** ** Decoding: a fractional SVG size *)



(** * Further properties of the code *)

(** ** File names *)

Lemma join_cons (sep p q : string) (rest : list string) :
  JsString.join sep (p :: q :: rest)
  = String.append p (String.append sep (JsString.join sep (q :: rest))).
Proof. reflexivity. Qed.

Lemma append_assoc (a b c : string) :
  String.append (String.append a b) c = String.append a (String.append b c).
Proof. induction a as [|x a IH]; [done|]. by rewrite !append_cons, IH. Qed.

Lemma join_split (s : string) : JsString.join "." (JsString.split "." s) = s.
Proof.
  induction s as [|c s IH]; [done|]. cbn [JsString.split].
  destruct (Ascii.eqb_spec c ".") as [->|Hc].
  - destruct (JsString.split "." s) as [|hd tl] eqn:E;
      [by apply split_not_nil in E|].
    rewrite join_cons, IH. done.
  - destruct (JsString.split "." s) as [|hd [|hd' tl]] eqn:E.
    + by apply split_not_nil in E.
    + cbn in *. by rewrite IH.
    + rewrite join_cons in *. by rewrite append_cons, IH.
Qed.

Lemma join_snoc (l : list string) (x : string) :
  l ≠ [] →
  JsString.join "." (l ++ [x])
  = String.append (JsString.join "." l) (String.append "." x).
Proof.
  induction l as [|y l IH]; [done|]. intros _.
  destruct l as [|z l]; [done|].
  change ((y :: z :: l) ++ [x]) with (y :: z :: (l ++ [x])).
  rewrite !join_cons.
  change (z :: l ++ [x]) with ((z :: l) ++ [x]). rewrite IH by done.
  by rewrite !append_assoc.
Qed.

Lemma split_has_dot (s : string) :
  has_dot s = true →
  ∃ (l : list string) (x : string), l ≠ [] ∧ JsString.split "." s = l ++ [x].
Proof.
  intros Hdot.
  destruct (JsString.split "." s) as [|x l _] eqn:E using rev_ind;
    [by apply split_not_nil in E|].
  exists l, x. split; [|done]. intros ->.
  apply split_single in E. congruence.
Qed.

Lemma split_append (a b : string) :
  JsString.split "." (String.append a (String.append "." b))
  = JsString.split "." a ++ JsString.split "." b.
Proof.
  induction a as [|c a IH]; [done|]. rewrite append_cons.
  cbn [JsString.split]. rewrite IH. destruct (Ascii.eqb c "."); [done|].
  destruct (JsString.split "." a) eqn:E; [by apply split_not_nil in E|done].
Qed.

(** X1: a name with a dot is its base name, a dot and its extension (the
    piece the validator looks at), so nothing of the name is lost between
    the two; a name without a dot is its own base name. *)
Theorem name_is_base_dot_extension (filename : string) :
  (has_dot filename = true →
   filename
   = String.append (getBaseName filename)
       (String.append "."
          (JsString.or_empty (JsString.pop (JsString.split "." filename)))))
  ∧ (has_dot filename = false → getBaseName filename = filename).
Proof.
  unfold getBaseName, JsString.pop, JsString.or_empty. split; intros Hdot.
  - destruct (split_has_dot _ Hdot) as (l & x & Hl & E).
    rewrite <- (join_split filename) at 1. rewrite E.
    rewrite last_snoc, removelast_last, join_snoc by done. cbn [default].
    destruct l as [|y l]; [done|]. rewrite length_app. cbn.
    by replace (length l + 1)%nat with (S (length l)) by lia.
  - by rewrite (split_no_dot _ Hdot).
Qed.

Lemma name_is_base_dot_extension_witness :
  "archive.tar.gz"%string
  = String.append (getBaseName "archive.tar.gz")
      (String.append "."
         (JsString.or_empty
            (JsString.pop (JsString.split "." "archive.tar.gz"))))
  ∧ getBaseName "README" = "README"%string.
Proof.
  split.
  - apply (proj1 (name_is_base_dot_extension "archive.tar.gz")). reflexivity.
  - apply (proj2 (name_is_base_dot_extension "README")). reflexivity.
Defined.

(** X2: only the last extension is taken off: for an extension without a
    dot, the base name of [base.ext] is [base], whatever dots [base] has,
    and the validator sees [ext]. *)
Theorem getBaseName_strips_last_extension (base ext : string) :
  has_dot ext = false →
  getBaseName (String.append base (String.append "." ext)) = base
  ∧ JsString.or_empty
      (JsString.pop
         (JsString.split "." (String.append base (String.append "." ext))))
    = ext.
Proof.
  intros Hext. unfold getBaseName, JsString.pop, JsString.or_empty.
  rewrite split_append, (split_no_dot _ Hext), last_snoc, removelast_last.
  rewrite join_split. split; [|done].
  destruct (JsString.split "." base) as [|hd tl] eqn:E;
    [by apply split_not_nil in E|].
  rewrite length_app. cbn.
  by replace (length tl + 1)%nat with (S (length tl)) by lia.
Qed.

Lemma getBaseName_strips_last_extension_witness :
  getBaseName "my.photo.png" = "my.photo"%string
  ∧ JsString.or_empty (JsString.pop (JsString.split "." "my.photo.png"))
    = "png"%string.
Proof.
  apply (getBaseName_strips_last_extension "my.photo" "png"). reflexivity.
Defined.

(** ** The validator and the decoder agree on SVG *)

Lemma substring_all (s : string) : substring 0 (String.length s) s = s.
Proof. induction s as [|c s IH]; cbn; [done|]. by rewrite IH. Qed.

Lemma substring_cut (k : nat) :
  ∀ s : string,
    (k ≤ String.length s)%nat →
    s = String.append (substring 0 k s)
          (substring k (String.length s - k) s).
Proof.
  induction k as [|k IH]; intros s Hk.
  - rewrite Nat.sub_0_r, substring_all. by destruct s.
  - destruct s as [|c s]; [cbn in Hk; lia|]. cbn in Hk.
    cbn [substring String.length Nat.sub]. rewrite append_cons.
    f_equal. apply IH. lia.
Qed.

Lemma endsWith_inv (s suffix : string) :
  JsString.endsWith s suffix = true →
  ∃ pre : string, s = String.append pre suffix.
Proof.
  unfold JsString.endsWith.
  destruct (String.length suffix <=? String.length s)%nat eqn:Hle; [|done].
  apply Nat.leb_le in Hle. intros Heq%String.eqb_eq.
  exists (substring 0 (String.length s - String.length suffix) s).
  pose proof (substring_cut (String.length s - String.length suffix) s) as H.
  replace (String.length s - (String.length s - String.length suffix))%nat
    with (String.length suffix) in H by lia.
  rewrite Heq in H. apply H. lia.
Qed.

Lemma length_append (a b : string) :
  String.length (String.append a b)
  = (String.length a + String.length b)%nat.
Proof. induction a as [|c a IH]; [done|]. rewrite append_cons. cbn. lia. Qed.

Lemma substring_append_r (a b : string) :
  substring (String.length a) (String.length b) (String.append a b) = b.
Proof.
  induction a as [|c a IH]; [apply substring_all|].
  rewrite append_cons. cbn. exact IH.
Qed.

Lemma endsWith_append (a suffix : string) :
  JsString.endsWith (String.append a suffix) suffix = true.
Proof.
  unfold JsString.endsWith. rewrite length_append.
  replace (String.length suffix <=? String.length a + String.length suffix)%nat
    with true by (symmetry; apply Nat.leb_le; lia).
  replace (String.length a + String.length suffix - String.length suffix)%nat
    with (String.length a) by lia.
  rewrite substring_append_r. apply String.eqb_refl.
Qed.

Lemma extension_of_append (base ext : string) :
  has_dot ext = false →
  extension_of (String.append base (String.append "." ext)) = ext.
Proof.
  intros Hext. rewrite <- pop_split_extension.
  unfold JsString.pop, JsString.or_empty.
  by rewrite split_append, (split_no_dot _ Hext), last_snoc.
Qed.

(** X3: every file the decoder treats as SVG (declared type
    image/svg+xml, or a lowercased name ending in [.svg]) is a file the
    validator accepts; and a file accepted for its extension [svg] is
    treated as SVG as soon as its name has a dot. *)
Theorem svg_files_are_accepted (file : File.t) :
  (is_svg_file file = true → isAcceptedFile file = true)
  ∧ (has_dot (JsString.toLowerCase (File.name file)) = true →
     JsString.or_empty
       (JsString.pop
          (JsString.split "." (JsString.toLowerCase (File.name file))))
     = "svg"%string →
     is_svg_file file = true).
Proof.
  split.
  - unfold is_svg_file, isAcceptedFile.
    intros [Htype|Hname]%orb_true_iff.
    + apply String.eqb_eq in Htype. by rewrite Htype.
    + destruct (JsString.includes ACCEPTED_TYPES (File.type file)); [done|].
      apply endsWith_inv in Hname as [pre Hpre].
      rewrite pop_split_extension, Hpre.
      change ".svg"%string with (String.append "." "svg").
      by rewrite extension_of_append.
  - intros Hdot Hext. unfold is_svg_file. apply orb_true_iff. right.
    destruct (split_has_dot _ Hdot) as (l & x & Hl & E).
    unfold JsString.pop, JsString.or_empty in Hext.
    rewrite E, last_snoc in Hext. cbn in Hext. subst x.
    rewrite <- (join_split (JsString.toLowerCase (File.name file))), E.
    rewrite join_snoc by done. apply endsWith_append.
Qed.

Lemma svg_files_are_accepted_witness :
  isAcceptedFile (File.mk "Logo.SVG" "" []) = true
  ∧ is_svg_file (File.mk "drawing.v2.svg" "text/plain" []) = true.
Proof.
  split.
  - apply (proj1 (svg_files_are_accepted (File.mk "Logo.SVG" "" []))).
    reflexivity.
  - apply (proj2 (svg_files_are_accepted
                    (File.mk "drawing.v2.svg" "text/plain" [])));
      reflexivity.
Defined.

Lemma lower_char_dot (c : ascii) :
  Ascii.eqb (JsString.lower_char c) "." = Ascii.eqb c ".".
Proof. by destruct c as [[] [] [] [] [] [] [] []]. Qed.

Lemma has_dot_toLowerCase (s : string) :
  has_dot (JsString.toLowerCase s) = has_dot s.
Proof.
  induction s as [|c s IH]; [done|]. cbn. by rewrite lower_char_dot, IH.
Qed.

Lemma toLowerCase_append (a b : string) :
  JsString.toLowerCase (String.append a b)
  = String.append (JsString.toLowerCase a) (JsString.toLowerCase b).
Proof.
  induction a as [|c a IH]; [done|]. rewrite append_cons. cbn.
  by rewrite IH, append_cons.
Qed.

(** X4: a file named [base.EXT], with EXT any case variant of png, jpg,
    jpeg or svg, is accepted whatever type it declares, the empty type and
    a type of another kind included. *)
Theorem accepted_by_extension_any_case
    (base ext type : string) (content : list Z) :
  has_dot ext = false →
  JsString.toLowerCase ext ∈ ["png"; "jpg"; "jpeg"; "svg"]%string →
  isAcceptedFile
    (File.mk (String.append base (String.append "." ext)) type content)
  = true.
Proof.
  intros Hdot Hext. unfold isAcceptedFile. cbn [File.type File.name].
  destruct (JsString.includes ACCEPTED_TYPES type); [done|].
  rewrite pop_split_extension, !toLowerCase_append.
  change (JsString.toLowerCase ".") with "."%string.
  rewrite extension_of_append by (by rewrite has_dot_toLowerCase).
  by apply includes_elem_of.
Qed.

Lemma accepted_by_extension_any_case_witness :
  isAcceptedFile (File.mk "Holiday.Pics.JPeG" "application/zip" []) = true.
Proof.
  apply (accepted_by_extension_any_case "Holiday.Pics" "JPeG").
  - reflexivity.
  - by apply (bool_decide_unpack _).
Defined.

(** ** Edge cases of the SVG sizing *)

(** X5: the viewBox is cut at white space only. A viewBox without white
    space (its numbers separated by commas, say) never gives the size, and
    neither does one that starts with white space when [parseFloat] of the
    empty string is not a finite number: without a declared width and
    height the size is then 256 by 256. *)
Theorem viewBox_is_cut_at_white_space
    (B : Browser) (svgText viewBox : string) (svg : Element) :
  root_svg B svgText = Some svg →
  declared_size B svg = None →
  getAttribute svg "viewBox" = Some viewBox →
  (has_space viewBox = false →
   parseSvgSize B svgText = mkSize (Number.of_Z 256) (Number.of_Z 256))
  ∧ (∀ (c : ascii) (rest : string),
       viewBox = String c rest →
       JsString.is_space c = true →
       Number.isFinite (parseFloat B "") = false →
       parseSvgSize B svgText = mkSize (Number.of_Z 256) (Number.of_Z 256)).
Proof.
  intros Hroot Hdeclared Hattr. rewrite parseSvgSize_resolved, Hroot, Hdeclared.
  unfold viewBox_size. rewrite Hattr.
  cbv beta iota delta [mbind option_bind]. split.
  - intros Hspace. unfold JsString.split_spaces.
    by rewrite split_spaces_no_space.
  - intros c rest -> Hc Hempty. unfold JsString.split_spaces.
    cbn [JsString.split_spaces_from]. rewrite Hc. rewrite fmap_cons.
    destruct (parseFloat B <$> JsString.split_spaces_from true rest)
      as [|y [|w [|h [|z parts]]]]; try done.
    cbn. by rewrite Hempty.
Qed.

Lemma viewBox_is_cut_at_white_space_witness :
  parseSvgSize
    (browser_with_document
       (Reference.svg_document [("viewBox", "0,0,64,64")]%string))
    "<svg viewBox='0,0,64,64'/>"
  = mkSize (Number.of_Z 256) (Number.of_Z 256)
  ∧ parseSvgSize
      (browser_with_document
         (Reference.svg_document [("viewBox", " 0 0 64 64")]%string))
      "<svg viewBox=' 0 0 64 64'/>"
    = mkSize (Number.of_Z 256) (Number.of_Z 256).
Proof.
  split.
  - eapply (proj1 (viewBox_is_cut_at_white_space
                     (browser_with_document
                        (Reference.svg_document
                           [("viewBox", "0,0,64,64")]%string))
                     "<svg viewBox='0,0,64,64'/>" "0,0,64,64" _
                     eq_refl eq_refl eq_refl)).
    reflexivity.
  - eapply (proj2 (viewBox_is_cut_at_white_space
                     (browser_with_document
                        (Reference.svg_document
                           [("viewBox", " 0 0 64 64")]%string))
                     "<svg viewBox=' 0 0 64 64'/>" " 0 0 64 64" _
                     eq_refl eq_refl eq_refl)); reflexivity.
Defined.

(** X6: whatever the markup, the DOM parser and [parseFloat] do, the size
    [parseSvgSize] returns has a finite width and a finite height: never
    NaN, never an infinity. *)
Theorem parseSvgSize_always_finite (B : Browser) (svgText : string) :
  Number.isFinite (width (parseSvgSize B svgText)) = true
  ∧ Number.isNaN (width (parseSvgSize B svgText)) = false
  ∧ Number.isFinite (height (parseSvgSize B svgText)) = true
  ∧ Number.isNaN (height (parseSvgSize B svgText)) = false.
Proof.
  destruct (parseSvgSize_finite B svgText) as [Hw Hh].
  split_and!; auto using isNaN_finite.
Qed.

(** ** The icon container for any size *)

(** X7: for any PNG and any size, every write of the builder lands inside
    the buffer of 22 + L bytes it allocated: no write of the header and no
    copy of the PNG is out of range (the allocation itself is taken to
    succeed). The two size bytes are 0 for every size from 256 up (not for
    256 alone) and the size itself below; and for a PNG shorter than 2^32
    bytes the offset and size fields of the header delimit exactly the PNG
    bytes. *)
Theorem buildIcoBlob_any_size (pngData : list Z) (size : Z) :
  ∃ bytes : list Z,
    buildIcoBlob pngData size = Ok (mkBlob bytes "image/x-icon")
    ∧ length bytes = (22 + length pngData)%nat
    ∧ (256 ≤ size →
       DataView.getUint8 bytes 6 = Some 0 ∧ DataView.getUint8 bytes 7 = Some 0)
    ∧ (0 ≤ size < 256 →
       DataView.getUint8 bytes 6 = Some size
       ∧ DataView.getUint8 bytes 7 = Some size)
    ∧ (Z.of_nat (length pngData) < 4294967296 →
       ∃ offset len : Z,
         DataView.getUint32 bytes 18 true = Some offset
         ∧ DataView.getUint32 bytes 14 true = Some len
         ∧ take (Z.to_nat len) (drop (Z.to_nat offset) bytes) = pngData).
Proof.
  eexists. split; [apply buildIcoBlob_layout|]. split; [reflexivity|].
  split_and!.
  - intros Hsize. replace (size >=? 256) with true; [done|].
    symmetry. apply Z.geb_le. lia.
  - intros Hsize. replace (size >=? 256) with false.
    + cbn. rewrite Z.mod_small by lia. done.
    + symmetry. rewrite Z.geb_leb. apply Z.leb_gt. lia.
  - intros Hlen. exists 22, (Z.of_nat (length pngData)). split_and!.
    + reflexivity.
    + apply (buildIcoBlob_data_size pngData size _ Hlen
               (buildIcoBlob_layout pngData size)).
    + rewrite Nat2Z.id. change (Z.to_nat 22) with 22%nat. cbn [drop app].
      unfold ico_header. cbn [drop app]. apply firstn_all.
Qed.

(** ** What a run keeps *)

Lemma convertAll_of_idle (B : Browser) (batch : list File.t) (b : bool)
    (q : number) (size : Z) (mode : Mode) (w : World) :
  batch = [] ∨ b = true →
  convertAll_of B batch b q size mode w = (Ok tt, w).
Proof.
  intros [-> | ->]; unfold convertAll_of; [done|]. by rewrite orb_true_r.
Qed.

Lemma finished_kept (B : Browser) (mode : Mode) (batch : list File.t)
    (q : number) (size : Z) (urls : gmap nat Blob) (n : nat)
    (r : option nat) (w : World) :
  files (finished B mode batch q size urls n r w).2 = files w
  ∧ busy (finished B mode batch q size urls n r w).2 = false
  ∧ quality (finished B mode batch q size urls n r w).2 = quality w
  ∧ iconSize (finished B mode batch q size urls n r w).2 = iconSize w.
Proof.
  unfold finished. destruct (1 <? length batch)%nat; [|done].
  by destruct (generateAsync B _).
Qed.

Lemma settled_name (p : pass) : ConversionItem.name (settled p) = p.1.
Proof. unfold settled. by destruct p.2. Qed.

(** A pass settles the items that carry the name of its file, all of them,
    and leaves the others as they are. *)
Lemma after_pass_fmap (l : list ConversionItem.t) (p : pass) :
  after_pass l p
  = (λ x, if String.eqb (ConversionItem.name x) p.1 then settled p else x)
      <$> l.
Proof.
  unfold after_pass, patched. induction l as [|x l IH]; [done|].
  rewrite !fmap_cons, IH. f_equal.
  destruct x as [n st d]. cbn [ConversionItem.name].
  destruct (String.eqb_spec n p.1) as [->|Hne].
  - cbn. rewrite String.eqb_refl. unfold settled. by destruct p.2.
  - cbn [ConversionItem.name]. by destruct (String.eqb_spec n p.1).
Qed.

Lemma foldl_after_pass_names (ps : list pass) (l : list ConversionItem.t) :
  ConversionItem.name <$> foldl after_pass l ps = ConversionItem.name <$> l.
Proof.
  revert l. induction ps as [|p ps IH]; intros l; [done|].
  cbn [foldl]. rewrite IH, after_pass_fmap, <- list_fmap_compose.
  induction l as [|x l IHl]; [done|]. rewrite !fmap_cons, IHl. f_equal.
  cbn. destruct (String.eqb_spec (ConversionItem.name x) p.1); [|done].
  by rewrite settled_name.
Qed.

Lemma foldl_after_pass_other (ps : list pass) (l : list ConversionItem.t)
    (i : nat) (x : ConversionItem.t) :
  l !! i = Some x → ConversionItem.name x ∉ ps.*1 →
  foldl after_pass l ps !! i = Some x.
Proof.
  revert l. induction ps as [|p ps IH]; intros l Hi Hx; [done|].
  cbn [foldl]. rewrite fmap_cons, not_elem_of_cons in Hx.
  destruct Hx as [Hp Hps]. apply IH; [|done].
  rewrite after_pass_fmap, list_lookup_fmap, Hi. cbn.
  by destruct (String.eqb_spec (ConversionItem.name x) p.1).
Qed.

Lemma foldl_after_pass_final (ps : list pass) (l : list ConversionItem.t) :
  Forall (λ x, ConversionItem.name x ∈ ps.*1 →
               ConversionItem.status x = done
               ∨ ConversionItem.status x = error)
    (foldl after_pass l ps).
Proof.
  induction ps as [|p ps IH] using rev_ind.
  - apply Forall_forall. intros x _ Hx. by apply elem_of_nil in Hx.
  - rewrite foldl_snoc, after_pass_fmap. apply Forall_fmap.
    eapply Forall_impl; [apply IH|]. intros x Hfinal. cbn.
    rewrite fmap_app, fmap_cons.
    destruct (String.eqb_spec (ConversionItem.name x) p.1) as [Heq|Hne].
    + intros _. unfold settled. destruct p.2; cbn; tauto.
    + intros [Hin|Hin]%elem_of_app; [by apply Hfinal|].
      apply list_elem_of_singleton in Hin. done.
Qed.

(** X8: a run never adds, removes, renames or reorders an item, whatever
    files, busy flag and settings the closure captured, and it leaves the
    selected files, the quality and the icon size alone; an item that
    carries the name of none of the captured files stays exactly as it
    is. *)
Theorem run_keeps_the_item_list
    (B : Browser) (batch : list File.t) (b : bool) (q : number) (size : Z)
    (mode : Mode) (w : World) :
  ConversionItem.name <$> items (convertAll_of B batch b q size mode w).2
  = ConversionItem.name <$> items w
  ∧ files (convertAll_of B batch b q size mode w).2 = files w
  ∧ quality (convertAll_of B batch b q size mode w).2 = quality w
  ∧ iconSize (convertAll_of B batch b q size mode w).2 = iconSize w
  ∧ ∀ (i : nat) (x : ConversionItem.t),
      items w !! i = Some x →
      ConversionItem.name x ∉ File.name <$> batch →
      items (convertAll_of B batch b q size mode w).2 !! i = Some x.
Proof.
  destruct (decide (batch = [])) as [Hnil|Hne].
  { by rewrite convertAll_of_idle by auto. }
  destruct b.
  { by rewrite convertAll_of_idle by auto. }
  destruct (convertAll_of_run B mode batch q size w Hne) as (urls & n & r & ->).
  rewrite finished_items.
  destruct (finished_kept B mode batch q size urls n r w) as (-> & _ & -> & ->).
  split_and!; try done.
  - apply foldl_after_pass_names.
  - intros i x Hi Hx. apply foldl_after_pass_other; [done|].
    by rewrite passes_names.
Qed.

(** ** The summary after a run *)

Lemma summary_final (l : list ConversionItem.t) :
  Forall (λ x, ConversionItem.status x = done
               ∨ ConversionItem.status x = error) l →
  (Summary.done (summary l) + Summary.errors (summary l))%nat
  = Summary.total (summary l).
Proof.
  unfold summary. cbn [Summary.done Summary.errors Summary.total].
  induction 1 as [|x l Hx _ IH]; [done|]. cbn [List.filter length].
  destruct Hx as [Hx | Hx]; rewrite Hx.
  - rewrite bool_decide_eq_true_2, bool_decide_eq_false_2 by done.
    cbn [length]. lia.
  - rewrite bool_decide_eq_false_2, bool_decide_eq_true_2 by done.
    cbn [length]. lia.
Qed.

(** X9: when every item carries the name of a selected file (as after
    intake), a run started on an idle page with files selected leaves every
    item Done or Error, the names need not be distinct; the summary then
    counts as many Done and Error items together as there are items, and
    as many items as before the run. *)
Theorem run_settles_every_item (B : Browser) (mode : Mode) (w : World) :
  busy w = false →
  files w ≠ [] →
  (∀ x, x ∈ items w → ConversionItem.name x ∈ File.name <$> files w) →
  Forall (λ x, ConversionItem.status x = done
               ∨ ConversionItem.status x = error)
    (items (convertAll B mode w).2)
  ∧ (Summary.done (summary (items (convertAll B mode w).2))
     + Summary.errors (summary (items (convertAll B mode w).2)))%nat
    = Summary.total (summary (items (convertAll B mode w).2))
  ∧ Summary.total (summary (items (convertAll B mode w).2))
    = length (items w).
Proof.
  intros Hbusy Hne Hnames.
  destruct (convertAll_run B mode w Hbusy Hne) as (urls & n & r & ->).
  rewrite finished_items.
  assert (Hfinal :
    Forall (λ x, ConversionItem.status x = done
                 ∨ ConversionItem.status x = error)
      (foldl after_pass (items w)
         (passes B mode (quality w) (iconSize w) (files w)))).
  { apply Forall_forall. intros x Hx.
    pose proof (foldl_after_pass_final
                  (passes B mode (quality w) (iconSize w) (files w))
                  (items w)) as Hall.
    rewrite Forall_forall in Hall. apply (Hall x Hx).
    rewrite passes_names.
    apply (list_elem_of_fmap_2 ConversionItem.name) in Hx.
    rewrite foldl_after_pass_names in Hx.
    apply list_elem_of_fmap in Hx as (x0 & -> & Hx0). by apply Hnames. }
  split_and!; [done|by apply summary_final|].
  cbn. rewrite <- (length_fmap ConversionItem.name), foldl_after_pass_names.
  by rewrite length_fmap.
Qed.

Lemma run_settles_every_item_witness :
  Forall (λ x, ConversionItem.status x = done
               ∨ ConversionItem.status x = error)
    (items (convertAll Reference.browser webp
              (Reference.dropped
                 [Reference.a_png; Reference.corrupt_a_png])).2)
  ∧ (Summary.done
       (summary (items (convertAll Reference.browser webp
                          (Reference.dropped
                             [Reference.a_png; Reference.corrupt_a_png])).2))
     + Summary.errors
         (summary (items (convertAll Reference.browser webp
                            (Reference.dropped
                               [Reference.a_png; Reference.corrupt_a_png])).2)))%nat
    = Summary.total
        (summary (items (convertAll Reference.browser webp
                           (Reference.dropped
                              [Reference.a_png; Reference.corrupt_a_png])).2))
  ∧ Summary.total
      (summary (items (convertAll Reference.browser webp
                         (Reference.dropped
                            [Reference.a_png; Reference.corrupt_a_png])).2))
    = length (items (Reference.dropped
                       [Reference.a_png; Reference.corrupt_a_png])).
Proof.
  apply (run_settles_every_item Reference.browser webp
           (Reference.dropped [Reference.a_png; Reference.corrupt_a_png])).
  - reflexivity.
  - done.
  - intros x Hx.
    change (x ∈ [fresh "a.png"; fresh "a.png"]) in Hx.
    change (ConversionItem.name x ∈ ["a.png"; "a.png"]%string).
    repeat (apply elem_of_cons in Hx as [->|Hx]); [by left..|].
    by apply elem_of_nil in Hx.
Defined.

(** ** The busy flag and a failing archive writer *)

(** X10: a run started on an idle page with files selected always ends
    with the page idle again, whatever failed on the way; a click while
    the page is busy, or with no file selected (as after [clearAll]),
    changes nothing at all. *)
Theorem run_ends_idle (B : Browser) (mode : Mode) (w : World) :
  (busy w = false → files w ≠ [] → busy (convertAll B mode w).2 = false)
  ∧ (busy w = true ∨ files w = [] → convertAll B mode w = (Ok tt, w))
  ∧ convertAll B mode (clearAll w).2 = (Ok tt, (clearAll w).2).
Proof.
  split_and!.
  - intros Hbusy Hne.
    destruct (convertAll_run B mode w Hbusy Hne) as (urls & n & r & ->).
    apply finished_kept.
  - intros Hidle. unfold convertAll. rewrite bind_run. unfold get.
    apply convertAll_of_idle. tauto.
  - unfold convertAll. rewrite bind_run. unfold get.
    apply convertAll_of_idle. by left.
Qed.

Lemma run_ends_idle_witness :
  busy (convertAll browser_with_failing_archive webp
          (Reference.dropped [Reference.a_png; Reference.c_png])).2 = false
  ∧ convertAll Reference.browser ico
      (with_busy true (Reference.dropped [Reference.a_png]))
    = (Ok tt, with_busy true (Reference.dropped [Reference.a_png])).
Proof.
  split.
  - apply (proj1 (run_ends_idle browser_with_failing_archive webp
                    (Reference.dropped [Reference.a_png; Reference.c_png])));
      [reflexivity|done].
  - apply (proj1 (proj2 (run_ends_idle Reference.browser ico
                           (with_busy true
                              (Reference.dropped [Reference.a_png]))))).
    by left.
Defined.

(** X11: when the archive writer rejects in a run over several files, the
    rejection escapes [convertAll]: nothing is downloaded, yet the page is
    idle again and every item of a selected file is Done or Error as its
    own pipeline decided. *)
Theorem archive_failure_escapes
    (B : Browser) (mode : Mode) (w : World) (e : exn) :
  busy w = false →
  (1 < length (files w))%nat →
  (∀ entries, generateAsync B entries = Throw e) →
  (convertAll B mode w).1 = Throw e
  ∧ downloaded (convertAll B mode w).2 = downloaded w
  ∧ busy (convertAll B mode w).2 = false
  ∧ Forall (λ x, ConversionItem.name x ∈ File.name <$> files w →
                 ConversionItem.status x = done
                 ∨ ConversionItem.status x = error)
      (items (convertAll B mode w).2).
Proof.
  intros Hbusy Hmany Hfail.
  assert (Hne : files w ≠ []).
  { intros Hnil. rewrite Hnil in Hmany. cbn in Hmany. lia. }
  destruct (convertAll_run B mode w Hbusy Hne) as (urls & n & r & ->).
  rewrite finished_result, finished_downloaded, finished_items.
  apply Nat.ltb_lt in Hmany as Hmany'. rewrite Hmany', Hfail.
  assert ((length (files w) =? 1)%nat = false) as ->.
  { apply Nat.eqb_neq. lia. }
  rewrite !app_nil_r. split_and!; [done|done|apply finished_kept|].
  rewrite <- (passes_names B mode (quality w) (iconSize w)).
  apply foldl_after_pass_final.
Qed.

Lemma archive_failure_escapes_witness :
  (convertAll browser_with_failing_archive webp
     (Reference.dropped [Reference.a_png; Reference.c_png])).1
  = Throw (JsError "archive failed")
  ∧ downloaded
      (convertAll browser_with_failing_archive webp
         (Reference.dropped [Reference.a_png; Reference.c_png])).2
    = downloaded (Reference.dropped [Reference.a_png; Reference.c_png])
  ∧ busy
      (convertAll browser_with_failing_archive webp
         (Reference.dropped [Reference.a_png; Reference.c_png])).2
    = false
  ∧ Forall (λ x, ConversionItem.name x
                 ∈ File.name
                   <$> files (Reference.dropped
                                [Reference.a_png; Reference.c_png]) →
                 ConversionItem.status x = done
                 ∨ ConversionItem.status x = error)
      (items
         (convertAll browser_with_failing_archive webp
            (Reference.dropped [Reference.a_png; Reference.c_png])).2).
Proof.
  apply (archive_failure_escapes browser_with_failing_archive webp
           (Reference.dropped [Reference.a_png; Reference.c_png])
           (JsError "archive failed")).
  - reflexivity.
  - by apply Nat.ltb_lt.
  - reflexivity.
Defined.

(** ** What a pass writes on its items *)

(** The failures of a pipeline the page names itself, and the one it
    passes on. *)
Lemma artifact_load_failed (B : Browser) (mode : Mode) (q : number) (icon : Z)
    (file : File.t) (svgSize : SvgSize) (blob : Blob) :
  source_blob B file = Ok (svgSize, blob) →
  image_decode B blob = None →
  artifact B mode q icon file = Throw (JsError "Image load failed").
Proof.
  intros Hsource Hdecode. unfold artifact, decoded. rewrite Hsource.
  cbv beta iota delta [mbind outcome_bind]. by rewrite Hdecode.
Qed.

Lemma artifact_no_context (B : Browser) (mode : Mode) (q : number) (icon : Z)
    (file : File.t) (image : Image) (wd ht : number) :
  decoded B file = Ok (image, wd, ht) →
  getContext2d B file = false →
  artifact B mode q icon file = Throw (JsError "Canvas unavailable").
Proof.
  intros Hdecoded Hctx. unfold artifact. rewrite Hdecoded.
  cbv beta iota delta [mbind outcome_bind]. by rewrite Hctx.
Qed.

Lemma artifact_no_blob (B : Browser) (mode : Mode) (q : number) (icon : Z)
    (file : File.t) (image : Image) (wd ht : number) :
  decoded B file = Ok (image, wd, ht) →
  getContext2d B file = true →
  match mode with
  | webp => canvas_toBlob B (painted image wd ht) "image/webp" (Some q)
  | ico =>
      canvas_toBlob B (painted image (Number.of_Z icon) (Number.of_Z icon))
        "image/png" None
  end = None →
  artifact B mode q icon file = Throw (JsError "Canvas export failed").
Proof.
  intros Hdecoded Hctx Hblob. unfold artifact. rewrite Hdecoded.
  cbv beta iota delta [mbind outcome_bind]. rewrite Hctx.
  destruct mode; by rewrite Hblob.
Qed.

Lemma artifact_text_threw (B : Browser) (mode : Mode) (q : number) (icon : Z)
    (file : File.t) (e : exn) :
  is_svg_file file = true →
  file_text B file = Throw e →
  artifact B mode q icon file = Throw e.
Proof.
  intros Hsvg Htext. unfold artifact, decoded, source_blob.
  by rewrite Hsvg, Htext.
Qed.

(** X12: after the pass on a file, every item that carries the name of the
    file is Done with no detail (a detail left by an earlier run is gone)
    or Error with a detail. The three messages the page makes itself have
    these causes: Image load failed when the image does not load, Canvas
    unavailable when the loaded image gets no 2d context, Canvas export
    failed when the encoder hands back no blob; and when reading the text
    of a file treated as SVG throws, the detail is the message of what was
    thrown, Failed when that is not an Error. *)
Theorem pass_settles_its_items
    (B : Browser) (mode : Mode) (isSingle : bool) (q : number) (icon : Z)
    (file : File.t) (w : World) :
  Forall
    (λ x : ConversionItem.t,
       ConversionItem.name x = File.name file →
       ((ConversionItem.status x = done ∧ ConversionItem.detail x = None)
        ∨ (ConversionItem.status x = error
           ∧ is_Some (ConversionItem.detail x)))
       ∧ (∀ (svgSize : SvgSize) (blob : Blob),
            source_blob B file = Ok (svgSize, blob) →
            image_decode B blob = None →
            ConversionItem.status x = error
            ∧ ConversionItem.detail x = Some "Image load failed"%string)
       ∧ (∀ (image : Image) (wd ht : number),
            decoded B file = Ok (image, wd, ht) →
            getContext2d B file = false →
            ConversionItem.status x = error
            ∧ ConversionItem.detail x = Some "Canvas unavailable"%string)
       ∧ (∀ (image : Image) (wd ht : number),
            decoded B file = Ok (image, wd, ht) →
            getContext2d B file = true →
            match mode with
            | webp =>
                canvas_toBlob B (painted image wd ht) "image/webp" (Some q)
            | ico =>
                canvas_toBlob B
                  (painted image (Number.of_Z icon) (Number.of_Z icon))
                  "image/png" None
            end = None →
            ConversionItem.status x = error
            ∧ ConversionItem.detail x = Some "Canvas export failed"%string)
       ∧ (∀ e : exn,
            is_svg_file file = true →
            file_text B file = Throw e →
            ConversionItem.status x = error
            ∧ ConversionItem.detail x
              = Some (match e with
                      | JsError message => message
                      | JsThrown => "Failed"%string
                      end)))
    (items (convertFile B mode isSingle q icon file w).2).
Proof.
  destruct (convertFile_run B mode isSingle q icon file w)
    as (urls & n & r & ->).
  cbn [snd after_convertFile items]. rewrite after_pass_fmap.
  apply Forall_fmap, Forall_forall. intros x0 _.
  unfold compose. cbv beta. cbn [fst].
  destruct (String.eqb_spec (ConversionItem.name x0) (File.name file))
    as [_|Hne]; [|by intros ?].
  intros _. unfold settled. cbn [fst snd]. split_and!.
  - destruct (artifact B mode q icon file) as [a|e]; [by left|right].
    by split.
  - intros svgSize blob Hsource Hdecode.
    by rewrite (artifact_load_failed B mode q icon file _ _ Hsource Hdecode).
  - intros image wd ht Hdecoded Hctx.
    by rewrite (artifact_no_context B mode q icon file _ _ _ Hdecoded Hctx).
  - intros image wd ht Hdecoded Hctx Hblob.
    by rewrite (artifact_no_blob B mode q icon file _ _ _ Hdecoded Hctx Hblob).
  - intros e Hsvg Htext.
    by rewrite (artifact_text_threw B mode q icon file e Hsvg Htext).
Qed.

(** The pass on a file without bytes, whose image does not load. *)
Lemma pass_settles_its_items_witness :
  Forall
    (λ x : ConversionItem.t,
       ConversionItem.name x = "b.png"%string →
       ConversionItem.status x = error
       ∧ ConversionItem.detail x = Some "Image load failed"%string)
    (items (convertFile Reference.browser webp true (Finite (82 # 100)) 256
              Reference.corrupt_b_png
              (Reference.dropped [Reference.corrupt_b_png])).2).
Proof.
  eapply Forall_impl.
  - apply (pass_settles_its_items Reference.browser webp true
             (Finite (82 # 100)) 256 Reference.corrupt_b_png
             (Reference.dropped [Reference.corrupt_b_png])).
  - intros x Hx Hname. destruct (Hx Hname) as (_ & Hload & _).
    by apply (Hload (mkSize (Number.of_Z 0) (Number.of_Z 0))
                (mkBlob [] "image/png")).
Defined.

(** ** Output names that collide *)

Lemma foldl_archived_skip (ps : list pass) (z : gmap string Blob)
    (n : string) :
  n ∉ archive_names ps → foldl archived z ps !! n = z !! n.
Proof.
  revert z. induction ps as [|p ps IH]; intros z Hn; [done|].
  cbn [foldl]. unfold archive_names in Hn. cbn in Hn.
  unfold archived at 2. destruct p.2 as [[n' blob]|e].
  - cbn in Hn. apply not_elem_of_cons in Hn as [Hne Hn].
    rewrite IH by done. by rewrite lookup_insert_ne.
  - by apply IH.
Qed.

(** X13: in a run over several files, the entry of the archive under a
    name is the artifact of the last file that was converted to that
    name: a file that converts to the name [n], with no file after it that
    converts to [n] as well, has its artifact under [n], whatever the
    files before it wrote there. *)
Theorem archive_keeps_the_last_artifact
    (B : Browser) (mode : Mode) (w : World)
    (before after : list File.t) (file : File.t) (n : string) (blob : Blob) :
  busy w = false →
  files w = before ++ file :: after →
  (1 < length (files w))%nat →
  artifact B mode (quality w) (iconSize w) file = Ok (n, blob) →
  (∀ f, f ∈ after →
        succeeded (artifact B mode (quality w) (iconSize w) f) = true →
        output_name mode f ≠ n) →
  n = output_name mode file
  ∧ zip (convertAll B mode w).2 !! n = Some blob.
Proof.
  intros Hbusy Hfiles Hmany Hfile Hafter.
  split; [by apply artifact_name in Hfile|].
  assert (Hne : files w ≠ []).
  { intros Hnil. rewrite Hnil in Hmany. cbn in Hmany. lia. }
  destruct (convertAll_run B mode w Hbusy Hne) as (urls & n0 & r & ->).
  rewrite finished_zip.
  assert ((length (files w) =? 1)%nat = false) as ->.
  { apply Nat.eqb_neq. lia. }
  rewrite Hfiles. unfold passes. rewrite fmap_app, fmap_cons, foldl_app.
  cbn [foldl]. rewrite foldl_archived_skip.
  - unfold archived at 1. cbn [snd]. rewrite Hfile.
    by rewrite lookup_insert_eq.
  - intros (f & Hf & Hname & Hok)%archive_names_passes.
    by apply (Hafter f).
Qed.

Lemma archive_keeps_the_last_artifact_witness :
  "a.webp"%string = output_name webp Reference.a_jpg
  ∧ zip (convertAll Reference.browser webp
           (Reference.dropped [Reference.a_png; Reference.a_jpg])).2
    !! "a.webp"%string
    = Some (mkBlob [255; 216; 255] "image/webp").
Proof.
  apply (archive_keeps_the_last_artifact Reference.browser webp
           (Reference.dropped [Reference.a_png; Reference.a_jpg])
           [Reference.a_png] [] Reference.a_jpg).
  - reflexivity.
  - reflexivity.
  - by apply Nat.ltb_lt.
  - reflexivity.
  - intros f Hf. by apply elem_of_nil in Hf.
Defined.

(** ** Object URLs across a run *)

Lemma downloadBlob_world (its : list ConversionItem.t) (fs : list File.t)
    (b : bool) (q : number) (sz : Z) (urls : gmap nat Blob) (n : nat)
    (dl : list (string * Blob)) (z : gmap string Blob) (rv : option nat)
    (h : list (list ConversionItem.t)) (blob : Blob) (filename : string) :
  downloadBlob blob filename (mkWorld its fs b q sz urls n dl z rv h)
  = (Ok tt,
     mkWorld its fs b q sz (delete n (<[n := blob]> urls)) (S n)
       (dl ++ [(filename, blob)]) z rv h).
Proof.
  unfold downloadBlob, createObjectURL, link_click, revokeObjectURL, modify,
    mbind, M_bind.
  cbn -[insert lookup delete]. rewrite lookup_insert_eq. reflexivity.
Qed.

Lemma pass_urls (B : Browser) (mode : Mode) (isSingle : bool)
    (q : number) (size : Z) (file : File.t) (w : World) :
  urls_fresh w →
  object_urls (convertFile B mode isSingle q size file w).2
  = register (leaked B file) (next_url w) (object_urls w)
  ∧ (next_url w + length (leaked B file)
     ≤ next_url (convertFile B mode isSingle q size file w).2)%nat.
Proof.
  intros Hfresh.
  assert (Hnone : ∀ k, (next_url w ≤ k)%nat → object_urls w !! k = None).
  { intros k Hk. apply eq_None_not_Some. intros Hsome%Hfresh. lia. }
  clear Hfresh.
  destruct w as [its fs b q0 sz urls0 n0 dl z rv h].
  cbn [object_urls next_url] in *.
  unfold convertFile, loadImageFromFile, leaked, file_blob.
  fold (is_svg_file file).
  destruct (is_svg_file file); [destruct (file_text B file) as [svgText|e]|];
    unfold load_image, createObjectURL, revokeObjectURL;
    repeat (pass_step; rewrite ?buildIcoBlob_layout, ?downloadBlob_world;
            pass_step; try pass_case).
  all: cbn [register length]; split; [|lia].
  all: apply map_eq; intros k.
  all: destruct (decide (k = n0)) as [->|Hk0];
         [|destruct (decide (k = S n0)) as [->|Hk1];
           [|destruct (decide (k = S (S n0))) as [->|Hk2]]].
  all: repeat first
         [ rewrite lookup_delete_eq | rewrite lookup_insert_eq
         | rewrite lookup_delete_ne by lia | rewrite lookup_insert_ne by lia ].
  all: try done.
  all: symmetry; apply Hnone; lia.
Qed.

Lemma urls_fresh_empty (w : World) : object_urls w = ∅ → urls_fresh w.
Proof.
  intros Hempty url. rewrite Hempty, lookup_empty. by intros [? ?].
Qed.

Lemma grown_by_refl (m : gmap nat Blob) (n n' : nat) :
  (∀ k, (n ≤ k)%nat → m !! k = None) → (n ≤ n')%nat →
  grown_by [] m m n n'.
Proof.
  intros Hnone Hle. unfold grown_by. split_and!; [|done|cbn; lia|done|auto].
  intros url Hsome. destruct (decide (url < n')%nat); [done|].
  rewrite Hnone in Hsome by lia. by destruct Hsome.
Qed.

Lemma register_grown (blobs : list Blob) :
  ∀ (n n' : nat) (m : gmap nat Blob),
    (∀ k, (n ≤ k)%nat → m !! k = None) →
    (n + length blobs ≤ n')%nat →
    grown_by blobs m (register blobs n m) n n'.
Proof.
  induction blobs as [|blob rest IH]; intros n n' m Hnone Hle.
  - cbn in Hle. apply grown_by_refl; [done|lia].
  - cbn [register]. cbn [length] in Hle.
    destruct (IH (S n) n' (<[n := blob]> m)) as (Hlt & Hsub & Hsize & _ & Hin).
    { intros k Hk. rewrite lookup_insert_ne by lia. apply Hnone. lia. }
    { lia. }
    unfold grown_by. split_and!.
    + done.
    + etransitivity; [|apply Hsub]. apply insert_subseteq, Hnone. lia.
    + rewrite Hsize, map_size_insert_None by (apply Hnone; lia).
      cbn [length]. lia.
    + lia.
    + intros url blob' Hurl. destruct (Hin url blob' Hurl) as [Hm|Hrest].
      * apply lookup_insert_Some in Hm as [[_ <-]|[_ Hm]]; [|by left].
        right. by left.
      * right. by right.
Qed.

Lemma grown_by_trans (l1 l2 : list Blob) (m m1 m2 : gmap nat Blob)
    (n n1 n2 : nat) :
  grown_by l1 m m1 n n1 → grown_by l2 m1 m2 n1 n2 →
  grown_by (l1 ++ l2) m m2 n n2.
Proof.
  intros (_ & Hsub1 & Hsize1 & Hle1 & Hin1) (Hlt & Hsub2 & Hsize2 & Hle2 & Hin2).
  unfold grown_by. split_and!.
  - done.
  - by etransitivity.
  - rewrite Hsize2, Hsize1, length_app. lia.
  - lia.
  - intros url blob Hurl. rewrite elem_of_app.
    destruct (Hin2 url blob Hurl) as [Hm1|?]; [|tauto].
    destruct (Hin1 url blob Hm1); tauto.
Qed.

Lemma fresh_none (w : World) :
  urls_fresh w → ∀ k, (next_url w ≤ k)%nat → object_urls w !! k = None.
Proof.
  intros Hfresh k Hk. apply eq_None_not_Some. intros Hsome%Hfresh. lia.
Qed.

Lemma for_of_urls (B : Browser) (mode : Mode) (isSingle : bool)
    (q : number) (size : Z) (batch : list File.t) :
  ∀ w : World,
    urls_fresh w →
    grown_by (batch ≫= leaked B) (object_urls w)
      (object_urls (for_of batch (convertFile B mode isSingle q size) w).2)
      (next_url w)
      (next_url (for_of batch (convertFile B mode isSingle q size) w).2).
Proof.
  induction batch as [|file batch IH]; intros w Hfresh.
  - cbn. apply grown_by_refl; [by apply fresh_none|lia].
  - cbn [for_of]. rewrite bind_run.
    destruct (pass_urls B mode isSingle q size file w Hfresh) as [Hurls Hnext].
    destruct (convertFile_run B mode isSingle q size file w)
      as (urls & n & r & Hrun).
    rewrite Hrun in Hurls, Hnext |- *.
    cbn [snd after_convertFile object_urls next_url] in Hurls, Hnext.
    pose proof (register_grown (leaked B file) (next_url w) n (object_urls w)
                  (fresh_none w Hfresh) Hnext) as Hpass.
    rewrite <- Hurls in Hpass.
    change ((file :: batch) ≫= leaked B)
      with (leaked B file ++ (batch ≫= leaked B)).
    eapply grown_by_trans; [apply Hpass|].
    apply (IH (after_convertFile isSingle
                 (File.name file, artifact B mode q size file) urls n r w)).
    intros url Hsome. by apply Hpass.
Qed.

Lemma convertAll_urls (B : Browser) (mode : Mode) (w : World) :
  urls_fresh w → busy w = false → files w ≠ [] →
  grown_by (files w ≫= leaked B) (object_urls w)
    (object_urls (convertAll B mode w).2)
    (next_url w) (next_url (convertAll B mode w).2).
Proof.
  intros Hfresh Hbusy Hne.
  destruct w as [its fs b q sz urls0 n0 dl z rv h].
  cbn [busy files object_urls next_url] in *. subst b.
  unfold convertAll. rewrite bind_run. unfold get.
  cbn [busy files quality iconSize]. unfold convertAll_of.
  assert ((length fs =? 0)%nat = false) as ->.
  { destruct fs; [done|]. reflexivity. }
  cbn [orb]. run_world.
  match goal with
  | |- context [for_of fs ?body ?W] =>
      pose proof (for_of_urls B mode (length fs =? 1)%nat q sz fs W Hfresh)
        as Hgrow;
      destruct (for_of_convertFile_run B mode (length fs =? 1)%nat
                  q sz fs W) as (urls & n & r & Hrun)
  end.
  rewrite Hrun in Hgrow |- *.
  cbn [snd after_loop object_urls next_url] in Hgrow.
  destruct (1 <? length fs)%nat.
  - unfold after_loop. run_world.
    destruct (generateAsync B _) as [zipBlob|e].
    + rewrite downloadBlob_world. run_world.
      rewrite delete_insert_id.
      * destruct Hgrow as (Hlt & Hsub & Hsize & Hle & Hin).
        unfold grown_by. split_and!; try done; [|lia].
        intros url Hsome%Hlt. lia.
      * apply eq_None_not_Some. intros Hsome.
        apply Hgrow in Hsome. lia.
    + run_world. exact Hgrow.
  - unfold after_loop. run_world. exact Hgrow.
Qed.

Lemma leaked_nil (B : Browser) (file : File.t) :
  leaked B file = []
  ↔ is_svg_file file = false ∧ is_Some (image_decode B (file_blob file)).
Proof.
  unfold leaked. destruct (is_svg_file file).
  - split; [|by intros [? _]]. by destruct (file_text B file).
  - destruct (image_decode B (file_blob file)) as [d|].
    + split; [|done]. intros _. split; [done|by exists d].
    + split; [done|]. by intros [_ [? ?]].
Qed.

(** X14: a download registers one object URL, has the browser save the
    blob under the file name through it, and revokes it again: exactly one
    download is added, and the registry of object URLs is as before. *)
Theorem downloadBlob_saves_and_revokes
    (blob : Blob) (filename : string) (w : World) :
  urls_fresh w →
  (downloadBlob blob filename w).1 = Ok tt
  ∧ downloaded (downloadBlob blob filename w).2
    = downloaded w ++ [(filename, blob)]
  ∧ object_urls (downloadBlob blob filename w).2 = object_urls w
  ∧ urls_fresh (downloadBlob blob filename w).2
  ∧ items (downloadBlob blob filename w).2 = items w
  ∧ zip (downloadBlob blob filename w).2 = zip w.
Proof.
  intros Hfresh. pose proof (fresh_none w Hfresh) as Hnone.
  destruct w as [its fs b q sz urls0 n0 dl z rv h].
  rewrite downloadBlob_world. cbn [fst snd downloaded object_urls items zip].
  cbn [object_urls next_url] in Hnone.
  rewrite delete_insert_id by (apply Hnone; lia).
  split_and!; try done.
  intros url Hsome%Hfresh. cbn [next_url] in *. lia.
Qed.

Lemma downloadBlob_saves_and_revokes_witness :
  (downloadBlob (mkBlob [1; 2; 3] "image/webp") "a.webp" initial).1 = Ok tt
  ∧ downloaded (downloadBlob (mkBlob [1; 2; 3] "image/webp") "a.webp"
                  initial).2
    = downloaded initial ++ [("a.webp"%string, mkBlob [1; 2; 3] "image/webp")]
  ∧ object_urls (downloadBlob (mkBlob [1; 2; 3] "image/webp") "a.webp"
                   initial).2
    = object_urls initial
  ∧ urls_fresh (downloadBlob (mkBlob [1; 2; 3] "image/webp") "a.webp"
                  initial).2
  ∧ items (downloadBlob (mkBlob [1; 2; 3] "image/webp") "a.webp" initial).2
    = items initial
  ∧ zip (downloadBlob (mkBlob [1; 2; 3] "image/webp") "a.webp" initial).2
    = zip initial.
Proof.
  apply (downloadBlob_saves_and_revokes (mkBlob [1; 2; 3] "image/webp")
           "a.webp" initial).
  by apply urls_fresh_empty.
Defined.

(** X15: a pass leaves registered exactly the object URLs it created and
    did not revoke, on top of the ones registered before: for a file
    treated as SVG the URL of the file itself, always, and the URL of the
    SVG text as well when its image fails to load; for another file its
    URL when the image fails to load. Only a file that is not treated as
    SVG and whose image loads leaves none; what fails after the image has
    loaded changes nothing to that. *)
Theorem pass_leaves_urls_registered
    (B : Browser) (mode : Mode) (isSingle : bool) (q : number) (icon : Z)
    (file : File.t) (w : World) :
  urls_fresh w →
  object_urls (convertFile B mode isSingle q icon file w).2
  = register (leaked B file) (next_url w) (object_urls w)
  ∧ size (object_urls (convertFile B mode isSingle q icon file w).2)
    = (size (object_urls w) + length (leaked B file))%nat
  ∧ urls_fresh (convertFile B mode isSingle q icon file w).2
  ∧ (leaked B file = []
     ↔ is_svg_file file = false
       ∧ is_Some (image_decode B (file_blob file))).
Proof.
  intros Hfresh.
  destruct (pass_urls B mode isSingle q icon file w Hfresh) as [Hurls Hnext].
  pose proof (register_grown (leaked B file) (next_url w) _ (object_urls w)
                (fresh_none w Hfresh) Hnext) as (Hlt & _ & Hsize & _ & _).
  rewrite <- Hurls in Hlt, Hsize.
  split_and!; [done|done|exact Hlt|apply leaked_nil].
Qed.

Lemma pass_leaves_urls_registered_witness :
  object_urls (convertFile Reference.browser webp true (Finite (82 # 100)) 256
                 Reference.fractional_svg
                 (Reference.dropped [Reference.fractional_svg])).2
  = register (leaked Reference.browser Reference.fractional_svg)
      (next_url (Reference.dropped [Reference.fractional_svg]))
      (object_urls (Reference.dropped [Reference.fractional_svg]))
  ∧ size (object_urls
            (convertFile Reference.browser webp true (Finite (82 # 100)) 256
               Reference.fractional_svg
               (Reference.dropped [Reference.fractional_svg])).2)
    = (size (object_urls (Reference.dropped [Reference.fractional_svg]))
       + length (leaked Reference.browser Reference.fractional_svg))%nat
  ∧ urls_fresh
      (convertFile Reference.browser webp true (Finite (82 # 100)) 256
         Reference.fractional_svg
         (Reference.dropped [Reference.fractional_svg])).2
  ∧ (leaked Reference.browser Reference.fractional_svg = []
     ↔ is_svg_file Reference.fractional_svg = false
       ∧ is_Some (image_decode Reference.browser
                    (file_blob Reference.fractional_svg))).
Proof.
  apply (pass_leaves_urls_registered Reference.browser webp true
           (Finite (82 # 100)) 256 Reference.fractional_svg
           (Reference.dropped [Reference.fractional_svg])).
  by apply urls_fresh_empty.
Defined.

(** X16: over a whole run, the registry of object URLs only grows: it
    gains one URL for every blob the passes leave registered and loses
    none, the downloads of the run leave no URL behind, and every URL
    registered at the end was registered before or stands for one of those
    blobs. The registry is as before exactly when every file left none:
    in particular when no file is treated as SVG and every image loads. *)
Theorem run_leaves_urls_registered
    (B : Browser) (mode : Mode) (w : World) :
  urls_fresh w →
  busy w = false →
  files w ≠ [] →
  size (object_urls (convertAll B mode w).2)
  = (size (object_urls w) + length (files w ≫= leaked B))%nat
  ∧ object_urls w ⊆ object_urls (convertAll B mode w).2
  ∧ urls_fresh (convertAll B mode w).2
  ∧ (∀ url blob,
       object_urls (convertAll B mode w).2 !! url = Some blob →
       object_urls w !! url = Some blob ∨ blob ∈ files w ≫= leaked B)
  ∧ (Forall (λ file, is_svg_file file = false
                     ∧ is_Some (image_decode B (file_blob file)))
       (files w) →
     object_urls (convertAll B mode w).2 = object_urls w).
Proof.
  intros Hfresh Hbusy Hne.
  destruct (convertAll_urls B mode w Hfresh Hbusy Hne)
    as (Hlt & Hsub & Hsize & Hle & Hin).
  split_and!; [done|done|exact Hlt|done|].
  intros Hall. symmetry. apply map_subseteq_size_eq; [done|].
  rewrite Hsize.
  replace (files w ≫= leaked B) with (@nil Blob); [cbn; lia|].
  symmetry. clear -Hall. induction Hall as [|file l Hfile _ IH]; [done|].
  change ((file :: l) ≫= leaked B) with (leaked B file ++ (l ≫= leaked B)).
  rewrite IH. by apply leaked_nil in Hfile as ->.
Qed.

Lemma run_leaves_urls_registered_witness :
  size (object_urls
          (convertAll Reference.browser webp
             (Reference.dropped
                [Reference.a_png; Reference.corrupt_b_png;
                 Reference.fractional_svg])).2)
  = (size (object_urls
             (Reference.dropped
                [Reference.a_png; Reference.corrupt_b_png;
                 Reference.fractional_svg]))
     + length (files (Reference.dropped
                        [Reference.a_png; Reference.corrupt_b_png;
                         Reference.fractional_svg])
               ≫= leaked Reference.browser))%nat
  ∧ object_urls (Reference.dropped
                   [Reference.a_png; Reference.corrupt_b_png;
                    Reference.fractional_svg])
    ⊆ object_urls
        (convertAll Reference.browser webp
           (Reference.dropped
              [Reference.a_png; Reference.corrupt_b_png;
               Reference.fractional_svg])).2
  ∧ urls_fresh
      (convertAll Reference.browser webp
         (Reference.dropped
            [Reference.a_png; Reference.corrupt_b_png;
             Reference.fractional_svg])).2
  ∧ (∀ url blob,
       object_urls
         (convertAll Reference.browser webp
            (Reference.dropped
               [Reference.a_png; Reference.corrupt_b_png;
                Reference.fractional_svg])).2 !! url = Some blob →
       object_urls (Reference.dropped
                      [Reference.a_png; Reference.corrupt_b_png;
                       Reference.fractional_svg]) !! url = Some blob
       ∨ blob ∈ files (Reference.dropped
                         [Reference.a_png; Reference.corrupt_b_png;
                          Reference.fractional_svg])
                ≫= leaked Reference.browser)
  ∧ (Forall (λ file, is_svg_file file = false
                     ∧ is_Some (image_decode Reference.browser
                                  (file_blob file)))
       (files (Reference.dropped
                 [Reference.a_png; Reference.corrupt_b_png;
                  Reference.fractional_svg])) →
     object_urls
       (convertAll Reference.browser webp
          (Reference.dropped
             [Reference.a_png; Reference.corrupt_b_png;
              Reference.fractional_svg])).2
     = object_urls (Reference.dropped
                      [Reference.a_png; Reference.corrupt_b_png;
                       Reference.fractional_svg])).
Proof.
  apply (run_leaves_urls_registered Reference.browser webp
           (Reference.dropped
              [Reference.a_png; Reference.corrupt_b_png;
               Reference.fractional_svg])).
  - by apply urls_fresh_empty.
  - reflexivity.
  - done.
Defined.

(** ** The image a file is decoded from *)

Lemma or_zero (a : number) : Number.or (Number.of_Z 0) a = a.
Proof. reflexivity. Qed.

Lemma or_natural (n : N) :
  Number.or (Number.of_N n) DEFAULT_SVG_SIZE
  = if (n =? 0)%N then Number.of_Z 256 else Number.of_N n.
Proof. by destruct n. Qed.

Lemma or_truthy (a b c : number) :
  Number.truthy a = true → Number.or (Number.or a b) c = a.
Proof. intros Ha. unfold Number.or. by rewrite Ha, Ha. Qed.

(** X17: a file that is not treated as SVG is decoded from its own bytes
    under its declared type, and loads with the natural size of the image,
    a natural dimension of 0 being replaced by 256. A file treated as SVG
    is decoded from its text, served as image/svg+xml whatever type the
    file declares, and each dimension [parseSvgSize] resolved to a value
    other than 0 is used as it is, the width and the height each on its
    own. *)
Theorem loaded_image_and_size
    (B : Browser) (file : File.t) (w w' : World) (loaded : Loaded.t) :
  loadImageFromFile B file w = (Ok loaded, w') →
  (is_svg_file file = false →
   ∃ nw nh : N,
     image_decode B (mkBlob (File.content file) (File.type file))
     = Some (nw, nh)
     ∧ Loaded.img loaded
       = mkImage (mkBlob (File.content file) (File.type file)) nw nh
     ∧ Loaded.width loaded
       = (if (nw =? 0)%N then Number.of_Z 256 else Number.of_N nw)
     ∧ Loaded.height loaded
       = (if (nh =? 0)%N then Number.of_Z 256 else Number.of_N nh))
  ∧ (is_svg_file file = true →
     ∃ (svgText : string) (nw nh : N),
       file_text B file = Ok svgText
       ∧ image_decode B (mkBlob (bytes_of_text svgText) "image/svg+xml")
         = Some (nw, nh)
       ∧ Loaded.img loaded
         = mkImage (mkBlob (bytes_of_text svgText) "image/svg+xml") nw nh
       ∧ (Number.truthy (width (parseSvgSize B svgText)) = true →
          Loaded.width loaded = width (parseSvgSize B svgText))
       ∧ (Number.truthy (height (parseSvgSize B svgText)) = true →
          Loaded.height loaded = height (parseSvgSize B svgText))).
Proof.
  destruct (loadImageFromFile_run B file w) as (urls & n & url & ->).
  unfold decoded, source_blob.
  destruct (is_svg_file file).
  - destruct (file_text B file) as [svgText|e];
      cbv beta iota delta [mbind outcome_bind mret outcome_ret]; [|done].
    destruct (image_decode B _) as [[nw nh]|] eqn:Hdecode; [|done].
    intros [= <- _]. split; [done|]. intros _.
    exists svgText, nw, nh. cbn [Loaded.img Loaded.width Loaded.height].
    split_and!; try done; apply or_truthy.
  - cbv beta iota delta [mbind outcome_bind mret outcome_ret].
    destruct (image_decode B _) as [[nw nh]|] eqn:Hdecode; [|done].
    intros [= <- _]. split; [|done]. intros _.
    exists nw, nh. cbn [Loaded.img Loaded.width Loaded.height width height].
    rewrite !or_zero, !or_natural. done.
Qed.

Lemma loaded_image_and_size_witness :
  ∃ (loaded : Loaded.t) (w' : World),
    loadImageFromFile Reference.browser Reference.fractional_svg initial
    = (Ok loaded, w')
    ∧ (is_svg_file Reference.fractional_svg = true →
       ∃ (svgText : string) (nw nh : N),
         file_text Reference.browser Reference.fractional_svg = Ok svgText
         ∧ image_decode Reference.browser
             (mkBlob (bytes_of_text svgText) "image/svg+xml")
           = Some (nw, nh)
         ∧ Loaded.img loaded
           = mkImage (mkBlob (bytes_of_text svgText) "image/svg+xml") nw nh
         ∧ (Number.truthy
              (width (parseSvgSize Reference.browser svgText)) = true →
            Loaded.width loaded
            = width (parseSvgSize Reference.browser svgText))
         ∧ (Number.truthy
              (height (parseSvgSize Reference.browser svgText)) = true →
            Loaded.height loaded
            = height (parseSvgSize Reference.browser svgText))).
Proof.
  eexists _, _. split; [reflexivity|].
  eapply (proj2 (loaded_image_and_size Reference.browser
                   Reference.fractional_svg initial _ _ eq_refl)).
Defined.

(** ** The summary counts the outcomes *)

Lemma settled_done_count (B : Browser) (mode : Mode) (q : number) (icon : Z)
    (batch : list File.t) :
  length (List.filter
            (λ item, bool_decide (ConversionItem.status item = done))
            (settled <$> passes B mode q icon batch))
  = length (List.filter (λ file, succeeded (artifact B mode q icon file))
              batch).
Proof.
  induction batch as [|file batch IH]; [done|].
  unfold passes in *. rewrite !fmap_cons. cbn [List.filter].
  unfold settled at 1. cbn [fst snd].
  destruct (artifact B mode q icon file);
    cbn [ConversionItem.status succeeded].
  - rewrite bool_decide_eq_true_2 by done. cbn [length]. by rewrite IH.
  - by rewrite bool_decide_eq_false_2 by done.
Qed.

Lemma settled_error_count (B : Browser) (mode : Mode) (q : number) (icon : Z)
    (batch : list File.t) :
  length (List.filter
            (λ item, bool_decide (ConversionItem.status item = error))
            (settled <$> passes B mode q icon batch))
  = length (List.filter
              (λ file, negb (succeeded (artifact B mode q icon file)))
              batch).
Proof.
  induction batch as [|file batch IH]; [done|].
  unfold passes in *. rewrite !fmap_cons. cbn [List.filter].
  unfold settled at 1. cbn [fst snd].
  destruct (artifact B mode q icon file);
    cbn [ConversionItem.status succeeded negb].
  - by rewrite bool_decide_eq_false_2 by done.
  - rewrite bool_decide_eq_true_2 by done. cbn [length]. by rewrite IH.
Qed.

(** X18: after a run over files with pairwise distinct names, each with
    its item, the summary line counts the outcomes of the pipelines: as
    many items as files, as many Done as files whose pipeline gave an
    artifact, as many failed as files whose pipeline threw. *)
Theorem summary_counts_outcomes (B : Browser) (mode : Mode) (w : World) :
  busy w = false →
  files w ≠ [] →
  ConversionItem.name <$> items w = File.name <$> files w →
  NoDup (File.name <$> files w) →
  summary (items (convertAll B mode w).2)
  = Summary.mk
      (length (files w))
      (length (List.filter
                 (λ file,
                    succeeded
                      (artifact B mode (quality w) (iconSize w) file))
                 (files w)))
      (length (List.filter
                 (λ file,
                    negb (succeeded
                            (artifact B mode (quality w) (iconSize w) file)))
                 (files w))).
Proof.
  intros Hbusy Hne Hnames Hnodup.
  destruct (convertAll_run B mode w Hbusy Hne) as (urls & n & r & ->).
  rewrite finished_items.
  rewrite <- (app_nil_l (items w)).
  rewrite (foldl_after_pass _ [] (items w)).
  - unfold summary. cbn [app].
    rewrite settled_done_count, settled_error_count.
    unfold passes. by rewrite !length_fmap.
  - by rewrite passes_names.
  - by rewrite passes_names.
  - intros x Hx. by apply elem_of_nil in Hx.
Qed.

Lemma summary_counts_outcomes_witness :
  summary
    (items (convertAll Reference.browser webp
              (Reference.dropped
                 [Reference.a_png; Reference.corrupt_b_png;
                  Reference.c_png])).2)
  = Summary.mk 3 2 1.
Proof.
  apply (summary_counts_outcomes Reference.browser webp
           (Reference.dropped
              [Reference.a_png; Reference.corrupt_b_png; Reference.c_png])).
  - reflexivity.
  - done.
  - reflexivity.
  - by apply (bool_decide_unpack _).
Defined.

(** ** What the archive holds *)

Lemma foldl_archived_lookup_inv (ps : list pass) (z : gmap string Blob)
    (n : string) (blob : Blob) :
  foldl archived z ps !! n = Some blob →
  z !! n = Some blob ∨ ∃ p : pass, p ∈ ps ∧ p.2 = Ok (n, blob).
Proof.
  revert z. induction ps as [|p ps IH]; intros z; [by left|].
  cbn [foldl]. intros [Hz|(p0 & Hp0 & E0)]%IH.
  - unfold archived in Hz. destruct p.2 as [[n' blob']|e] eqn:E.
    + apply lookup_insert_Some in Hz as [[-> ->]|[_ Hz]]; [|by left].
      right. exists p. split; [by left|done].
    + by left.
  - right. exists p0. split; [by right|done].
Qed.

Lemma artifact_ico_blob (B : Browser) (q : number) (icon : Z)
    (file : File.t) (n : string) (blob : Blob) :
  artifact B ico q icon file = Ok (n, blob) →
  blob_type blob = "image/x-icon"%string
  ∧ (22 ≤ length (blob_data blob))%nat.
Proof.
  unfold artifact. destruct (decoded B file) as [[[image wd] ht]|e]; [|done].
  cbv beta iota delta [mbind outcome_bind mret outcome_ret].
  destruct (getContext2d B file); [|done].
  destruct (canvas_toBlob B _ _ _); [|done].
  rewrite buildIcoBlob_layout. intros [= _ <-].
  cbn [blob_type blob_data]. split; [done|].
  cbn [length]. lia.
Qed.

(** X19: whatever the archive held before and whether or not names
    collide, every entry of the archive after a run is the artifact of one
    of the selected files, under the base name of that file with the
    extension of the mode; the run was over several files; and in icon mode
    the entry is typed image/x-icon and holds the 22 bytes of the header at
    least. *)
Theorem archive_holds_only_artifacts
    (B : Browser) (mode : Mode) (w : World) (n : string) (blob : Blob) :
  busy w = false →
  files w ≠ [] →
  zip (convertAll B mode w).2 !! n = Some blob →
  (1 < length (files w))%nat
  ∧ (∃ file : File.t,
       file ∈ files w
       ∧ artifact B mode (quality w) (iconSize w) file = Ok (n, blob)
       ∧ n = String.append (getBaseName (File.name file))
               match mode with webp => ".webp" | ico => ".ico" end)
  ∧ (mode = ico →
     blob_type blob = "image/x-icon"%string
     ∧ (22 ≤ length (blob_data blob))%nat).
Proof.
  intros Hbusy Hne.
  destruct (convertAll_run B mode w Hbusy Hne) as (urls & n0 & r & ->).
  rewrite finished_zip.
  destruct (length (files w) =? 1)%nat eqn:Hone; [by rewrite lookup_empty|].
  intros [Hempty|(p & Hp & E)]%foldl_archived_lookup_inv;
    [by rewrite lookup_empty in Hempty|].
  unfold passes in Hp. apply list_elem_of_fmap in Hp as (file & -> & Hfile).
  cbn [snd] in E. split_and!.
  - apply Nat.eqb_neq in Hone. destruct (files w) as [|f [|g l]]; [done|done|].
    cbn [length]. lia.
  - exists file. split_and!; [done|done|].
    apply artifact_name in E. rewrite E. by destruct mode.
  - intros ->. by apply artifact_ico_blob in E.
Qed.

Lemma archive_holds_only_artifacts_witness :
  (1 < length (files (Reference.dropped [Reference.a_png; Reference.c_png])))%nat
  ∧ (∃ file : File.t,
       file ∈ files (Reference.dropped [Reference.a_png; Reference.c_png])
       ∧ artifact Reference.browser ico
           (quality (Reference.dropped [Reference.a_png; Reference.c_png]))
           (iconSize (Reference.dropped [Reference.a_png; Reference.c_png]))
           file
         = Ok ("c.ico"%string,
               mkBlob (ico_header 0 4 ++ [137; 80; 78; 72]) "image/x-icon")
       ∧ "c.ico"%string
         = String.append (getBaseName (File.name file)) ".ico")
  ∧ (ico = ico →
     blob_type (mkBlob (ico_header 0 4 ++ [137; 80; 78; 72]) "image/x-icon")
     = "image/x-icon"%string
     ∧ (22 ≤ length (blob_data
                       (mkBlob (ico_header 0%Z 4%Z ++ [137; 80; 78; 72]%Z)
                          "image/x-icon")))%nat).
Proof.
  apply (archive_holds_only_artifacts Reference.browser ico
           (Reference.dropped [Reference.a_png; Reference.c_png])
           "c.ico"
           (mkBlob (ico_header 0 4 ++ [137; 80; 78; 72]) "image/x-icon")).
  - reflexivity.
  - done.
  - reflexivity.
Defined.

(** ** A run starts every item again *)

Lemma snapshots_working (ps : list pass) :
  ∀ (pre l : list ConversionItem.t) (i : nat) (p : pass),
    ConversionItem.name <$> l = ps.*1 →
    NoDup ps.*1 →
    (∀ n, n ∈ ConversionItem.name <$> pre → n ∉ ps.*1) →
    ps !! i = Some p →
    ∃ render : list ConversionItem.t,
      snapshots (pre ++ l) ps !! (2 * i)%nat = Some render
      ∧ render !! (length pre + i)%nat
        = Some (ConversionItem.mk p.1 working None).
Proof.
  induction ps as [|p0 ps IH]; intros pre l i p Hnames Hnodup Hpre Hi;
    [done|].
  destruct l as [|x l]; [done|]. cbn in Hnames.
  injection Hnames as Hx Hl. apply NoDup_cons in Hnodup as [Hp0 Hnodup].
  destruct (after_pass_middle p0 pre l x) as [Hworking Hsettled];
    [done| |by rewrite Hl|].
  { intros Hin. apply (Hpre _ Hin). by left. }
  cbn [snapshots]. rewrite Hworking, Hsettled.
  destruct i as [|i].
  - injection Hi as <-. eexists. split; [reflexivity|].
    rewrite Nat.add_0_r. by rewrite list_lookup_middle.
  - cbn in Hi. replace (2 * S i)%nat with (S (S (2 * i))) by lia.
    cbn [lookup list_lookup].
    rewrite (cons_middle (settled p0)), app_assoc.
    destruct (IH (pre ++ [settled p0]) l i p Hl Hnodup) as (render & Hr & Hri);
      [|done|].
    { intros n. rewrite fmap_app, elem_of_app. intros [Hin|Hin].
      - intros Hn. apply (Hpre _ Hin). by right.
      - apply list_elem_of_singleton in Hin. subst n.
        by rewrite settled_name. }
    exists render. split; [exact Hr|].
    rewrite length_app in Hri. cbn [length] in Hri.
    by replace (length pre + S i)%nat with (length pre + 1 + i)%nat by lia.
Qed.

(** X20: a run starts every item again, whatever an earlier run left: over
    files with pairwise distinct names, each with its item, the run hands
    React two item lists per file, and in the first of the two for the
    file at place [i] the item at place [i] is Working with no detail, be
    it Ready, Done or Error with a detail before. *)
Theorem run_restarts_every_item
    (B : Browser) (mode : Mode) (w : World) (i : nat) (file : File.t) :
  busy w = false →
  ConversionItem.name <$> items w = File.name <$> files w →
  NoDup (File.name <$> files w) →
  files w !! i = Some file →
  length (history (convertAll B mode w).2)
  = (length (history w) + 2 * length (files w))%nat
  ∧ ∃ render : list ConversionItem.t,
      history (convertAll B mode w).2 !! (length (history w) + 2 * i)%nat
      = Some render
      ∧ render !! i = Some (ConversionItem.mk (File.name file) working None).
Proof.
  intros Hbusy Hnames Hnodup Hi.
  assert (Hne : files w ≠ []) by (by intros Hnil; rewrite Hnil in Hi).
  destruct (convertAll_run B mode w Hbusy Hne) as (urls & n & r & ->).
  rewrite finished_history. split.
  - rewrite length_app. f_equal. unfold passes.
    generalize (items w). clear.
    induction (files w) as [|f l IH]; intros its; [done|].
    cbn [fmap list_fmap snapshots length]. rewrite IH. lia.
  - rewrite lookup_app_r by lia.
    replace (length (history w) + 2 * i - length (history w))%nat
      with (2 * i)%nat by lia.
    destruct (snapshots_working
                (passes B mode (quality w) (iconSize w) (files w))
                [] (items w) i
                (File.name file,
                 artifact B mode (quality w) (iconSize w) file))
      as (render & Hr & Hri).
    + by rewrite passes_names.
    + by rewrite passes_names.
    + intros x Hx. by apply elem_of_nil in Hx.
    + unfold passes. by rewrite list_lookup_fmap, Hi.
    + exists render. split; [exact Hr|exact Hri].
Qed.

(** The second run over one file: the item, Done after the first run, is
    Working again in the first list the second run hands over. *)
Lemma run_restarts_every_item_witness :
  ConversionItem.status
    <$> items (Reference.clicked webp (Reference.dropped [Reference.a_png]))
  = [done]
  ∧ length (history
              (convertAll Reference.browser ico
                 (Reference.clicked webp
                    (Reference.dropped [Reference.a_png]))).2)
    = (length (history (Reference.clicked webp
                          (Reference.dropped [Reference.a_png])))
       + 2 * length (files (Reference.clicked webp
                              (Reference.dropped [Reference.a_png]))))%nat
  ∧ ∃ render : list ConversionItem.t,
      history
        (convertAll Reference.browser ico
           (Reference.clicked webp (Reference.dropped [Reference.a_png]))).2
      !! (length (history (Reference.clicked webp
                             (Reference.dropped [Reference.a_png])))
          + 2 * 0)%nat
      = Some render
      ∧ render !! 0%nat
        = Some (ConversionItem.mk (File.name Reference.a_png) working None).
Proof.
  split; [reflexivity|].
  apply (run_restarts_every_item Reference.browser ico
           (Reference.clicked webp (Reference.dropped [Reference.a_png]))
           0 Reference.a_png).
  - reflexivity.
  - reflexivity.
  - by apply (bool_decide_unpack _).
  - reflexivity.
Defined.
